(** * mongoutils: identifier validation and conversion, limit and sort form values

    A shallow embedding of the Go package [mongoutils] and of the few
    library functions it calls (encoding/hex, bson's ObjectId helpers,
    strconv.Atoi, strings.Split, http.Request.FormValue), followed by the
    properties of the package's identifier codec and query helpers.

    Go strings are byte sequences: they are modelled by [string], whose
    characters ([ascii]) are the bytes.  Go's [int] is modelled by [Z]. *)

From Stdlib Require Import ZArith NArith List String Ascii Bool Lia.
Import ListNotations.

Local Open Scope string_scope.
Local Open Scope Z_scope.

(** ** Bytes and strings as Go has them *)

Module GoString.

(** The numeric value of a byte. *)
Definition byteZ (c : ascii) : Z := Z.of_N (N_of_ascii c).

(** Go's conversion [byte(x)]: the low eight bits of [x]. *)
Definition toByte (x : Z) : ascii := ascii_of_N (Z.to_N (x mod 256)).

(** [len(s)]. *)
Definition len (s : string) : Z := Z.of_nat (String.length s).

(** [s[i]] for an index that is in range; the table lookups below never
    leave the range, the zero byte stands for the run-time panic. *)
Definition at' (s : string) (i : Z) : ascii :=
  match String.get (Z.to_nat i) s with
  | Some c => c
  | None => zero
  end.

(** [s[:m]] and [s[m:]]. *)
Definition take (m : nat) (s : string) : string := substring 0 m s.

Fixpoint drop (m : nat) (s : string) : string :=
  match m, s with
  | O, _ => s
  | S _, EmptyString => EmptyString
  | S m', String _ s' => drop m' s'
  end.

(** All bytes of [s] satisfy [f]. *)
Fixpoint all (f : ascii -> bool) (s : string) : bool :=
  match s with
  | EmptyString => true
  | String c s' => f c && all f s'
  end.

End GoString.
Import GoString.

(** ** encoding/hex *)

Module Hex.

Inductive hexError : Type :=
| ErrLength
| InvalidByteError (c : ascii).

Definition hextable : string := "0123456789abcdef".

(** [fromHexChar]: the value of one hexadecimal digit, of either case. *)
Definition fromHexChar (c : ascii) : option Z :=
  let n := byteZ c in
  if (byteZ "0" <=? n) && (n <=? byteZ "9") then Some (n - byteZ "0")
  else if (byteZ "a" <=? n) && (n <=? byteZ "f") then Some (n - byteZ "a" + 10)
  else if (byteZ "A" <=? n) && (n <=? byteZ "F") then Some (n - byteZ "A" + 10)
  else None.

(** [hex.DecodeString]: pairs of digits become bytes, left to right; the
    bytes decoded before a failure are returned with the error.  A bad
    digit is reported before an odd length. *)
Fixpoint DecodeString (src : string) : string * option hexError :=
  match src with
  | EmptyString => (EmptyString, None)
  | String p EmptyString =>
      match fromHexChar p with
      | None => (EmptyString, Some (InvalidByteError p))
      | Some _ => (EmptyString, Some ErrLength)
      end
  | String p (String q rest) =>
      match fromHexChar p, fromHexChar q with
      | None, _ => (EmptyString, Some (InvalidByteError p))
      | Some _, None => (EmptyString, Some (InvalidByteError q))
      | Some a, Some b =>
          let (d, e) := DecodeString rest in
          (String (toByte (Z.lor (Z.shiftl a 4) b)) d, e)
      end
  end.

(** [hex.EncodeToString]: two lowercase digits per byte. *)
Fixpoint EncodeToString (src : string) : string :=
  match src with
  | EmptyString => EmptyString
  | String v rest =>
      String (at' hextable (Z.shiftr (byteZ v) 4))
        (String (at' hextable (Z.land (byteZ v) 15)) (EncodeToString rest))
  end.

End Hex.

(** ** bson.ObjectId *)

Module Bson.

(** [type ObjectId string]: the twelve raw bytes of the identifier. *)
Definition ObjectId : Type := string.

(** The process-wide data [bson.NewObjectId] reads and updates: the
    clock, the machine id bytes, the process id and the counter that
    is incremented atomically for every generated identifier. *)
Record Process : Type := mkProcess {
  unixTime : Z;
  machineId : ascii * ascii * ascii;
  processId : Z;
  objectIdCounter : Z
}.

Definition setUnixTime (t : Z) (p : Process) : Process :=
  mkProcess t (machineId p) (processId p) (objectIdCounter p).

(** [bson.IsObjectIdHex]. *)
Definition IsObjectIdHex (s : string) : bool :=
  if negb (len s =? 24) then false
  else match Hex.DecodeString s with
       | (_, None) => true
       | (_, Some _) => false
       end.

(** [bson.ObjectIdHex]; [None] is the panic on invalid input. *)
Definition ObjectIdHex (s : string) : option ObjectId :=
  match Hex.DecodeString s with
  | (d, None) => if len d =? 12 then Some d else None
  | (_, Some _) => None
  end.

(** [ObjectId.Hex]. *)
Definition Hex (id : ObjectId) : string := Hex.EncodeToString id.

(** [ObjectId.Valid]: an identifier has twelve bytes. *)
Definition Valid (id : ObjectId) : bool := len id =? 12.

(** [bson.NewObjectId]: four bytes of time, three of machine id, two of
    process id and the low three bytes of the incremented counter, all
    big endian.  The counter is a uint32 and wraps. *)
Definition NewObjectId (p : Process) : ObjectId * Process :=
  let t := unixTime p mod 2 ^ 32 in
  let '(m0, m1, m2) := machineId p in
  let i := (objectIdCounter p + 1) mod 2 ^ 32 in
  (String (toByte (Z.shiftr t 24))
     (String (toByte (Z.shiftr t 16))
        (String (toByte (Z.shiftr t 8))
           (String (toByte t)
              (String m0
                 (String m1
                    (String m2
                       (String (toByte (Z.shiftr (processId p) 8))
                          (String (toByte (processId p))
                             (String (toByte (Z.shiftr i 16))
                                (String (toByte (Z.shiftr i 8))
                                   (String (toByte i) EmptyString))))))))))),
   mkProcess (unixTime p) (machineId p) (processId p) i).

End Bson.

(** ** The package: constants and errors *)

Definition ID_LENGTH : Z := 24.
Definition LIMIT_DEFAULT_VALUE : Z := 5.
Definition LIMIT_RETURN_ALL : Z := 0.
Definition SORT_DEFAULT : string := "_id".

(** The package's error values, with Go's [nil]. *)
Inductive error : Type :=
| nil
| ErrIdBadLength
| ErrIdNotHex
| ErrNoResults.

(** ** Object id validation *)

Definition isIdCorrectLength (inputId : string) : bool * error :=
  if negb (len inputId =? ID_LENGTH) then (false, ErrIdBadLength)
  else (true, nil).

Definition isValidHexString (inputId : string) : bool * error :=
  if Bool.eqb (Bson.IsObjectIdHex inputId) false then (false, ErrIdNotHex)
  else (true, nil).

Definition isValidId (inputId : string) : bool * error :=
  let (yes, err) := isIdCorrectLength inputId in
  if Bool.eqb yes false then (false, err)
  else
    let (yes, err) := isValidHexString inputId in
    if Bool.eqb yes false then (false, err)
    else (true, nil).

(** ** Object id conversion *)

(** [GetObjectIdFromString] returns a pair; on invalid input the
    identifier of the pair is a newly generated one, which advances the
    process data.  The outer [option] is [None] should [bson.ObjectIdHex]
    panic. *)
Definition GetObjectIdFromString (inputId : string) (p : Bson.Process)
  : option (Bson.ObjectId * error) * Bson.Process :=
  let (yes, err) := isValidId inputId in
  if Bool.eqb yes false then
    let (id, p') := Bson.NewObjectId p in (Some (id, err), p')
  else
    (option_map (fun id => (id, nil)) (Bson.ObjectIdHex inputId), p).

Definition GetStringFromObjectId (input : Bson.ObjectId) : string :=
  Bson.Hex input.

(** ** strconv.Atoi *)

Module Strconv.

Inductive numError : Type :=
| ErrSyntax
| ErrRange.

(** [strconv.IntSize] on the 64-bit platforms the package is built for. *)
Definition IntSize : Z := 64.

Definition maxUint64 : Z := 2 ^ 64 - 1.

(** The conversion [int64(u)] of an unsigned 64-bit value. *)
Definition toInt64 (u : Z) : Z := (u + 2 ^ 63) mod 2 ^ 64 - 2 ^ 63.

Definition isDigit (c : ascii) : bool :=
  (byteZ "0" <=? byteZ c) && (byteZ c <=? byteZ "9").

(** The digit loop of [ParseUint(s, 10, 64)], with [n] the value read so
    far.  The additions are those of uint64 and the overflow tests are
    the ones the library makes. *)
Fixpoint parseUintLoop (s : string) (n : Z) : Z * option numError :=
  match s with
  | EmptyString => (n, None)
  | String c s' =>
      if isDigit c then
        let d := byteZ c - byteZ "0" in
        if n >=? maxUint64 / 10 + 1 then (maxUint64, Some ErrRange)
        else
          let n10 := (n * 10) mod 2 ^ 64 in
          let n1 := (n10 + d) mod 2 ^ 64 in
          if (n1 <? n10) || (maxUint64 <? n1) then (maxUint64, Some ErrRange)
          else parseUintLoop s' n1
      else (0, Some ErrSyntax)
  end.

Definition ParseUint (s : string) : Z * option numError :=
  match s with
  | EmptyString => (0, Some ErrSyntax)
  | _ => parseUintLoop s 0
  end.

(** [ParseInt(s, 10, bitSize)]: an optional sign, then [ParseUint]. *)
Definition ParseInt (s : string) (bitSize : Z) : Z * option numError :=
  match s with
  | EmptyString => (0, Some ErrSyntax)
  | String c0 s' =>
      let neg := Ascii.eqb c0 "-" in
      let body := if Ascii.eqb c0 "+" || Ascii.eqb c0 "-" then s' else s in
      match ParseUint body with
      | (_, Some ErrSyntax) => (0, Some ErrSyntax)
      | (un, _) =>
          let bitSize := if bitSize =? 0 then IntSize else bitSize in
          let cutoff := 2 ^ (bitSize - 1) in
          if negb neg && (un >=? cutoff) then (cutoff - 1, Some ErrRange)
          else if neg && (un >? cutoff) then (- cutoff, Some ErrRange)
          else
            let n := toInt64 un in
            (if neg then toInt64 (- n) else n, None)
      end
  end.

(** [strconv.Atoi(s)] is [ParseInt(s, 10, 0)] converted to [int]. *)
Definition Atoi (s : string) : Z * option numError := ParseInt s 0.

End Strconv.

(** ** strings.Split *)

Module Strings.

Fixpoint HasPrefix (s prefix : string) : bool :=
  match prefix, s with
  | EmptyString, _ => true
  | String _ _, EmptyString => false
  | String a p', String b s' => Ascii.eqb a b && HasPrefix s' p'
  end.

(** [strings.Index]: the first position where [substr] occurs. *)
Fixpoint Index (s substr : string) : option nat :=
  if HasPrefix s substr then Some O
  else match s with
       | EmptyString => None
       | String _ s' => option_map S (Index s' substr)
       end.

Fixpoint countByte (c : ascii) (s : string) : nat :=
  match s with
  | EmptyString => O
  | String a s' => (if Ascii.eqb a c then 1 else 0) + countByte c s'
  end.

Fixpoint countLoop (fuel : nat) (s substr : string) : nat :=
  match fuel with
  | O => O
  | S fuel' =>
      match Index s substr with
      | None => O
      | Some i => S (countLoop fuel' (drop (i + String.length substr) s) substr)
      end
  end.

(** [strings.Count]: non-overlapping occurrences; one-byte separators
    take the byte-counting path. *)
Definition Count (s substr : string) : nat :=
  match substr with
  | EmptyString => S (String.length s)
  | String c EmptyString => countByte c s
  | _ => countLoop (String.length s) s substr
  end.

(** The loop of [genSplit]: at most [n] cuts at the first occurrence of
    [sep], the rest of the string being the last element. *)
Fixpoint genSplitLoop (n : nat) (s sep : string) : list string :=
  match n with
  | O => [s]
  | S n' =>
      match Index s sep with
      | None => [s]
      | Some m => take m s :: genSplitLoop n' (drop (m + String.length sep) s) sep
      end
  end.

Fixpoint explode (s : string) : list string :=
  match s with
  | EmptyString => []
  | String c s' => String c EmptyString :: explode s'
  end.

(** [strings.Split(s, sep)]; for the empty separator the string is cut
    into its characters, which are its bytes for ASCII input. *)
Definition Split (s sep : string) : list string :=
  match sep with
  | EmptyString => explode s
  | _ => genSplitLoop (Count s sep) s sep
  end.

(** [strings.Join]. *)
Fixpoint Join (elems : list string) (sep : string) : string :=
  match elems with
  | [] => EmptyString
  | [e] => e
  | e :: rest => e ++ sep ++ Join rest sep
  end.

(** [strings.ToLower] on ASCII letters. *)
Definition lowerByte (c : ascii) : ascii :=
  if (byteZ "A" <=? byteZ c) && (byteZ c <=? byteZ "Z")
  then toByte (byteZ c + (byteZ "a" - byteZ "A"))
  else c.

Fixpoint ToLower (s : string) : string :=
  match s with
  | EmptyString => EmptyString
  | String c s' => String (lowerByte c) (ToLower s')
  end.

End Strings.

(** ** http.Request form values *)

Module Http.

(** A request whose form has been parsed: [url.Values] maps a key to
    the values supplied for it. *)
Record Request : Type := mkRequest {
  Form : list (string * list string)
}.

Fixpoint lookup (key : string) (vs : list (string * list string))
  : option (list string) :=
  match vs with
  | [] => None
  | (k, v) :: vs' => if String.eqb k key then Some v else lookup key vs'
  end.

(** [r.FormValue(key)]: the first value for [key], the empty string
    when there is none. *)
Definition FormValue (r : Request) (key : string) : string :=
  match lookup key (Form r) with
  | Some (v :: _) => v
  | _ => EmptyString
  end.

End Http.

(** ** Queries *)

(** [Limit] is the same function in every revision of the package. *)
Definition Limit (r : Http.Request) : Z :=
  let limit := Http.FormValue r "limit" in
  if len limit =? 0 then LIMIT_DEFAULT_VALUE
  else if String.eqb limit "none" || String.eqb limit "all" then LIMIT_RETURN_ALL
  else
    match Strconv.Atoi limit with
    | (_, Some _) => LIMIT_DEFAULT_VALUE
    | (limitInt, None) => limitInt
    end.

(** [Sort] as it splits the form value to sort by many fields.  The
    call [r.ParseForm()] fills the form of the request, which [Request]
    already holds; the result is what [strings.Split] returns, handed on
    to the driver's [Sort] by the caller. *)
Definition Sort (r : Http.Request) : list string :=
  let sort := Http.FormValue r "sort" in
  if len sort =? 0 then [SORT_DEFAULT]
  else Strings.Split sort ",".

(** The single-field [Sort] of mongoutils.go, which hands the form value
    on as it is. *)
Module SingleField.

Definition Sort (r : Http.Request) : string :=
  let sort := Http.FormValue r "sort" in
  if len sort =? 0 then SORT_DEFAULT
  else sort.

End SingleField.

(** A request carrying the given form fields, one value each. *)
Definition requestWith (fields : list (string * string)) : Http.Request :=
  Http.mkRequest (map (fun kv => (fst kv, [snd kv])) fields).

(** ** Notions of the specification

    These follow the words of the specification, not the code, and are
    what the code is compared with. *)

(** A hexadecimal digit, of either case. *)
Definition isHexDigit (c : ascii) : bool :=
  ((byteZ "0" <=? byteZ c) && (byteZ c <=? byteZ "9"))
  || ((byteZ "a" <=? byteZ c) && (byteZ c <=? byteZ "f"))
  || ((byteZ "A" <=? byteZ c) && (byteZ c <=? byteZ "F")).

(** An external identifier: 24 characters, each a hexadecimal digit. *)
Definition validExternalId (s : string) : Prop :=
  len s = 24 /\ all isHexDigit s = true.

(** The number a string of decimal digits denotes, by position. *)
Fixpoint decimalValue (s : string) : Z :=
  match s with
  | EmptyString => 0
  | String c s' => (byteZ c - byteZ "0") * 10 ^ len s' + decimalValue s'
  end.

Definition digits (s : string) : bool :=
  negb (len s =? 0) && all Strconv.isDigit s.

(** The integer a string denotes: an optional sign, then one or more
    decimal digits. *)
Definition integerLiteral (s : string) : option Z :=
  match s with
  | String c s' =>
      if Ascii.eqb c "-" then
        if digits s' then Some (- decimalValue s') else None
      else if Ascii.eqb c "+" then
        if digits s' then Some (decimalValue s') else None
      else if digits s then Some (decimalValue s) else None
  | EmptyString => None
  end.

(** The values of Go's [int]. *)
Definition inIntRange (v : Z) : Prop := - 2 ^ 63 <= v < 2 ^ 63.

(** Integer parsing as the specification has it: the integer the string
    denotes, when Go's [int] holds it. *)
Definition parseInteger (s : string) : option Z :=
  match integerLiteral s with
  | Some v => if (- 2 ^ 63 <=? v) && (v <? 2 ^ 63) then Some v else None
  | None => None
  end.

(** The raw, optional input of the query helpers: the first value of a
    form field, when the request has one. *)
Definition formField (r : Http.Request) (key : string) : option string :=
  match Http.lookup key (Http.Form r) with
  | Some (v :: _) => Some v
  | _ => None
  end.

(** [resolveLimit], policy by policy in the order of the specification. *)
Definition resolveLimit (raw : option string) : Z :=
  match raw with
  | None => 5
  | Some s =>
      if String.eqb s "" then 5
      else if String.eqb s "none" || String.eqb s "all" then 0
      else match parseInteger s with
           | None => 5
           | Some v => v
           end
  end.

(** The reading of a sort token: a leading [-] marks descending order and
    the field name is the token without it. *)
Definition descending (token : string) : bool := Strings.HasPrefix token "-".

Definition fieldName (token : string) : string :=
  if descending token then drop 1 token else token.

Definition commaFree (token : string) : Prop :=
  Strings.countByte "," token = O.

(** The outcome of a call of [GetObjectIdFromString]: its error, its
    identifier and the process data it leaves. *)
Definition errorOf (r : option (Bson.ObjectId * error) * Bson.Process)
  : option error := option_map snd (fst r).

Definition idOf (r : option (Bson.ObjectId * error) * Bson.Process)
  : option Bson.ObjectId := option_map fst (fst r).

Definition processAfter (r : option (Bson.ObjectId * error) * Bson.Process)
  : Bson.Process := snd r.

(** A process to run the examples in. *)
Definition someProcess : Bson.Process :=
  Bson.mkProcess 1446422400 ("a", "b", "c")%char 4242 7.

(** ** The mgo driver, as far as the package uses it *)

Module Mgo.

(** The consistency modes the package names; their numbers are the ones
    [setReadPreference] compares its argument with. *)
Inductive Mode : Type :=
| Eventual
| Monotonic
| Strong.

Definition modeNumber (m : Mode) : Z :=
  match m with
  | Eventual => 0
  | Monotonic => 1
  | Strong => 2
  end.

(** [mgo.Safe], the write concern. *)
Record Safe : Type := mkSafe {
  W : Z;
  WMode : string;
  WTimeout : Z;
  FSync : bool;
  J : bool
}.

(** What the package sets and reads of a [*mgo.Session]: its mode, its
    safety ([None] is the nil pointer) and whether it has been closed. *)
Record Session : Type := mkSession {
  consistency : Mode;
  safety : option Safe;
  closed : bool
}.

(** [s.SetMode(consistency, refresh)]. *)
Definition SetMode (m : Mode) (refresh : bool) (s : Session) : Session :=
  mkSession m (safety s) (closed s).

(** [s.SetSafe(safe)]. *)
Definition SetSafe (safe : option Safe) (s : Session) : Session :=
  mkSession (consistency s) safe (closed s).

(** [s.Close()]; closing a closed session changes nothing. *)
Definition Close (s : Session) : Session :=
  mkSession (consistency s) (safety s) true.

End Mgo.

(** ** Connecting and disconnecting *)

(** The package-level session variable and the lines written with the
    [log] package. *)
Record World : Type := mkWorld {
  SESSION : option Mgo.Session;
  logged : list string
}.

(** [log.Println(msg)]. *)
Definition Println (msg : string) (w : World) : World :=
  mkWorld (SESSION w) (logged w ++ [msg]).

(** A call returns, or panics with a message; either way it leaves a
    world. *)
Inductive run : Type :=
| Returned (w : World)
| Panicked (msg : string) (w : World).


(** The message of the panic when a method is called on a nil session. *)
Definition nilDereference : string :=
  "runtime error: invalid memory address or nil pointer dereference".

(** [setReadPreference] changes the session it is given, which is
    returned here, and may log. *)
Definition setReadPreference (s : Mgo.Session) (input : Z) (w : World)
  : Mgo.Session * World :=
  if input =? 0 then (Mgo.SetMode Mgo.Eventual true s, w)
  else if input =? 1 then (Mgo.SetMode Mgo.Monotonic true s, w)
  else if input =? 2 then (Mgo.SetMode Mgo.Strong true s, w)
  else (s, Println "mongoutils.go-SetReadPreference error" w).

(** [Connect], with the read preference given as a number.  [dial] is
    what [mgo.Dial] answers for a connection string: a session, or the
    text of an error.  [log.Panicln] logs and panics. *)
Definition Connect (servers database : string) (readPreference : Z)
  (writeConcern : option Mgo.Safe) (dial : string -> Mgo.Session + string)
  (w : World) : run :=
  let uri := (servers ++ database)%string in
  match dial uri with
  | inr err =>
      let w := Println "mongoutils.go-Connect error" w in
      Panicked err (Println err w)
  | inl session =>
      let (session, w) := setReadPreference session readPreference w in
      let session := Mgo.SetSafe writeConcern session in
      let w := Println "mongoutils.go-Connect okay" w in
      Returned (mkWorld (Some session) (logged w))
  end.

Definition Close (w : World) : run :=
  match SESSION w with
  | None => Panicked nilDereference w
  | Some s => Returned (mkWorld (Some (Mgo.Close s)) (logged w))
  end.

(** The revision whose [Connect] takes the mode itself. *)
Module ModeArgument.

Definition Connect (servers database : string) (readPreference : Mgo.Mode)
  (writeConcern : option Mgo.Safe) (dial : string -> Mgo.Session + string)
  (w : World) : run :=
  let uri := (servers ++ database)%string in
  match dial uri with
  | inr err =>
      let w := Println "mongoutils.go-Connect error" w in
      Panicked err (Println err w)
  | inl session =>
      let session := Mgo.SetMode readPreference true session in
      let session := Mgo.SetSafe writeConcern session in
      let w := Println "mongoutils.go-Connect okay" w in
      Returned (mkWorld (Some session) (logged w))
  end.

End ModeArgument.

(** The revision of mongoutils.go, configured by constants of the file;
    its session variable is [MGO_SESSION]. *)
Module FixedConfig.

Definition SERVERS : string := "localhost:27017/".
Definition DATABASE : string := "databaseName".
Definition URI : string := (SERVERS ++ DATABASE)%string.
Definition READ_PREFERENCE : Mgo.Mode := Mgo.Monotonic.
Definition WRITE_CONCERN : option Mgo.Safe :=
  Some (Mgo.mkSafe 0 "majority" 0 true false).

Definition Connect (dial : string -> Mgo.Session + string) (w : World) : run :=
  match dial URI with
  | inr err =>
      let w := Println "mongoConnectError" w in
      Panicked err (Println err w)
  | inl session =>
      let session := Mgo.SetMode READ_PREFERENCE true session in
      let session := Mgo.SetSafe WRITE_CONCERN session in
      let w := Println "MongoDB - Connected" w in
      Returned (mkWorld (Some session) (logged w))
  end.

End FixedConfig.

(** ** Error handling *)

(** The error values [NoResult] can be handed: one of the package's own,
    the driver's [mgo.ErrNotFound], or any other error, known by its
    text. *)
Inductive goError : Type :=
| packageError (e : error)
| mgoErrNotFound
| foreignError (msg : string).

Definition NoResult (input : goError) : bool * error :=
  match input with
  | mgoErrNotFound => (true, ErrNoResults)
  | _ => (false, nil)
  end.

(** Requests with the one form field [limit], or [sort]. *)
Definition limitRequest (value : string) : Http.Request :=
  requestWith [("limit", value)].

Definition sortRequest (value : string) : Http.Request :=
  requestWith [("sort", value)].


(** * Properties *)

(** ** Bytes *)

Section Bytes.

Lemma byteZ_range (c : ascii) : 0 <= byteZ c < 256.
Proof.
  unfold byteZ. pose proof (N_ascii_bounded c). lia.
Qed.

Lemma toByte_byteZ (c : ascii) : toByte (byteZ c) = c.
Proof.
  unfold toByte. rewrite Z.mod_small by apply byteZ_range.
  unfold byteZ. rewrite N2Z.id. apply ascii_N_embedding.
Qed.

Lemma byteZ_toByte (z : Z) : byteZ (toByte z) = z mod 256.
Proof.
  unfold byteZ, toByte.
  assert (H : 0 <= z mod 256 < 256) by (apply Z.mod_pos_bound; lia).
  rewrite N_ascii_embedding by lia. lia.
Qed.

Lemma len_cons (c : ascii) (s : string) : len (String c s) = len s + 1.
Proof. unfold len. cbn [String.length]. lia. Qed.

Lemma len_nonneg (s : string) : 0 <= len s.
Proof. unfold len. lia. Qed.

Lemma len_zero (s : string) : len s = 0 -> s = EmptyString.
Proof. destruct s; [reflexivity | rewrite len_cons; pose proof (len_nonneg s); lia]. Qed.

(** Induction over a string two bytes at a time. *)
Lemma string_pair_ind (P : string -> Prop) :
  P EmptyString ->
  (forall c, P (String c EmptyString)) ->
  (forall p q s, P s -> P (String p (String q s))) ->
  forall s, P s.
Proof.
  intros H0 H1 H2 s.
  enough (H : P s /\ forall c, P (String c s)) by apply H.
  induction s as [| a s [IHs IHc]]; split; auto.
Qed.

Lemma all_false_ex (f : ascii -> bool) (s : string) :
  all f s = false <-> exists c, In c (list_ascii_of_string s) /\ f c = false.
Proof.
  induction s as [| a s IH]; cbn [all list_ascii_of_string In].
  - split; [discriminate | intros [c [[] _]]].
  - rewrite andb_false_iff, IH. split.
    + intros [Ha | [c [Hin Hc]]]; [exists a | exists c]; auto.
    + intros [c [[-> | Hin] Hc]]; [left | right; exists c]; auto.
Qed.

End Bytes.

(** ** The hexadecimal codec *)

Section HexCodec.

Import Hex.

Lemma fromHexChar_isHexDigit (c : ascii) :
  isHexDigit c = true <-> exists a, fromHexChar c = Some a.
Proof.
  unfold isHexDigit, fromHexChar.
  destruct ((byteZ "0" <=? byteZ c) && (byteZ c <=? byteZ "9"));
    destruct ((byteZ "a" <=? byteZ c) && (byteZ c <=? byteZ "f"));
    destruct ((byteZ "A" <=? byteZ c) && (byteZ c <=? byteZ "F"));
    cbn [orb];
    (split; [intros H; try discriminate H; eauto
            | intros [a Ha]; try discriminate Ha; reflexivity]).
Qed.

Lemma fromHexChar_not_digit (c : ascii) :
  isHexDigit c = false -> fromHexChar c = None.
Proof.
  intros H. destruct (fromHexChar c) as [a |] eqn:E; [| reflexivity].
  assert (isHexDigit c = true) by (apply fromHexChar_isHexDigit; eauto).
  congruence.
Qed.

(** A digit's value is below sixteen and the table holds, at that value,
    the digit in lower case. *)
Lemma fromHexChar_digit (c : ascii) (a : Z) :
  fromHexChar c = Some a ->
  0 <= a < 16 /\ at' hextable a = Strings.lowerByte c.
Proof.
  destruct c as [[] [] [] [] [] [] [] []]; vm_compute;
    intros H; try discriminate H; injection H as <-;
    (split; [split; [discriminate | reflexivity] | reflexivity]).
Qed.

(** Two values below sixteen packed into a byte are read back. *)
Lemma nibbles_of_byte (a b : Z) :
  0 <= a < 16 -> 0 <= b < 16 ->
  Z.shiftr (byteZ (toByte (Z.lor (Z.shiftl a 4) b))) 4 = a
  /\ Z.land (byteZ (toByte (Z.lor (Z.shiftl a 4) b))) 15 = b.
Proof.
  intros Ha Hb. rewrite byteZ_toByte.
  assert (Ea : a = 0 \/ a = 1 \/ a = 2 \/ a = 3 \/ a = 4 \/ a = 5 \/ a = 6
               \/ a = 7 \/ a = 8 \/ a = 9 \/ a = 10 \/ a = 11 \/ a = 12
               \/ a = 13 \/ a = 14 \/ a = 15) by lia.
  assert (Eb : b = 0 \/ b = 1 \/ b = 2 \/ b = 3 \/ b = 4 \/ b = 5 \/ b = 6
               \/ b = 7 \/ b = 8 \/ b = 9 \/ b = 10 \/ b = 11 \/ b = 12
               \/ b = 13 \/ b = 14 \/ b = 15) by lia.
  clear Ha Hb.
  repeat (destruct Ea as [-> | Ea]); try subst a;
    repeat (destruct Eb as [-> | Eb]); try subst b; split; reflexivity.
Qed.

(** The two digits written for a byte decode to that byte. *)
Lemma digits_of_byte (v : ascii) :
  let hi := Z.shiftr (byteZ v) 4 in
  let lo := Z.land (byteZ v) 15 in
  fromHexChar (at' hextable hi) = Some hi
  /\ fromHexChar (at' hextable lo) = Some lo
  /\ toByte (Z.lor (Z.shiftl hi 4) lo) = v.
Proof.
  destruct v as [[] [] [] [] [] [] [] []]; vm_compute; repeat split.
Qed.

Lemma EncodeToString_len (x : string) : len (EncodeToString x) = 2 * len x.
Proof.
  induction x as [| v x IH]; [reflexivity |].
  cbn [EncodeToString]. rewrite !len_cons, IH. lia.
Qed.

Lemma DecodeString_EncodeToString (x : string) :
  DecodeString (EncodeToString x) = (x, None).
Proof.
  induction x as [| v x IH]; [reflexivity |].
  cbn [EncodeToString DecodeString].
  destruct (digits_of_byte v) as [Hhi [Hlo Hv]].
  rewrite Hhi, Hlo, IH, Hv. reflexivity.
Qed.

(** A string of an even number of hexadecimal digits decodes, to half as
    many bytes, and these are written back as the string in lower case. *)
Lemma DecodeString_digits (s : string) :
  all isHexDigit s = true ->
  Nat.even (String.length s) = true ->
  exists d, DecodeString s = (d, None)
            /\ 2 * len d = len s
            /\ EncodeToString d = Strings.ToLower s.
Proof.
  induction s as [| c | p q s IH] using string_pair_ind.
  - intros _ _. exists EmptyString. repeat split.
  - intros _ H. discriminate H.
  - cbn [all String.length Nat.even]. intros H Hev.
    apply andb_prop in H as [Hp H]. apply andb_prop in H as [Hq H].
    destruct (IH H Hev) as [d [Hd [Hlen Henc]]].
    apply fromHexChar_isHexDigit in Hp as [a Ha].
    apply fromHexChar_isHexDigit in Hq as [b Hb].
    exists (String (toByte (Z.lor (Z.shiftl a 4) b)) d).
    cbn [DecodeString]. rewrite Ha, Hb, Hd.
    destruct (fromHexChar_digit _ _ Ha) as [Ra Ta].
    destruct (fromHexChar_digit _ _ Hb) as [Rb Tb].
    destruct (nibbles_of_byte a b Ra Rb) as [Nhi Nlo].
    repeat split.
    + rewrite !len_cons. lia.
    + cbn [EncodeToString Strings.ToLower].
      rewrite Nhi, Nlo, Ta, Tb, Henc. reflexivity.
Qed.

(** A string with a character that is no hexadecimal digit does not
    decode. *)
Lemma DecodeString_not_digits (s : string) :
  all isHexDigit s = false -> snd (DecodeString s) <> None.
Proof.
  induction s as [| c | p q s IH] using string_pair_ind.
  - discriminate.
  - cbn [all DecodeString]. rewrite andb_true_r. intros H.
    rewrite (fromHexChar_not_digit _ H). discriminate.
  - cbn [all DecodeString]. intros H.
    destruct (isHexDigit p) eqn:Hp.
    + apply fromHexChar_isHexDigit in Hp as [a Ha]. rewrite Ha.
      destruct (isHexDigit q) eqn:Hq.
      * apply fromHexChar_isHexDigit in Hq as [b Hb]. rewrite Hb.
        cbn [andb] in H. specialize (IH H).
        destruct (DecodeString s) as [d e]. exact IH.
      * rewrite (fromHexChar_not_digit _ Hq). discriminate.
    + rewrite (fromHexChar_not_digit _ Hp). discriminate.
Qed.

Lemma even_of_len (s : string) (k : Z) :
  len s = 2 * k -> Nat.even (String.length s) = true.
Proof.
  unfold len. intros H. apply Nat.even_spec.
  exists (Z.to_nat k). lia.
Qed.

End HexCodec.

(** ** Validation and conversion of identifiers *)

Section Identifiers.

Lemma isValidId_bad_length (s : string) :
  len s <> 24 -> isValidId s = (false, ErrIdBadLength).
Proof.
  intros H. unfold isValidId, isIdCorrectLength, ID_LENGTH.
  destruct (Z.eqb_spec (len s) 24); [contradiction | reflexivity].
Qed.

Lemma isValidId_not_hex (s : string) :
  len s = 24 -> all isHexDigit s = false ->
  isValidId s = (false, ErrIdNotHex).
Proof.
  intros Hlen H.
  unfold isValidId, isIdCorrectLength, isValidHexString, Bson.IsObjectIdHex,
    ID_LENGTH.
  rewrite Hlen. cbn [Z.eqb Pos.eqb negb Bool.eqb].
  pose proof (DecodeString_not_digits s H) as Herr.
  destruct (Hex.DecodeString s) as [d [e |]]; [reflexivity |].
  now contradiction Herr.
Qed.

Lemma isValidId_valid (s : string) :
  validExternalId s -> isValidId s = (true, nil).
Proof.
  intros [Hlen H].
  unfold isValidId, isIdCorrectLength, isValidHexString, Bson.IsObjectIdHex,
    ID_LENGTH.
  rewrite Hlen. cbn [Z.eqb Pos.eqb negb Bool.eqb].
  destruct (DecodeString_digits s H (even_of_len s 12 Hlen)) as [d [Hd _]].
  rewrite Hd. reflexivity.
Qed.

Lemma ObjectIdHex_valid (s : string) :
  validExternalId s ->
  exists x, Bson.ObjectIdHex s = Some x
            /\ Bson.Valid x = true
            /\ Bson.Hex x = Strings.ToLower s.
Proof.
  intros [Hlen H].
  destruct (DecodeString_digits s H (even_of_len s 12 Hlen))
    as [d [Hd [Hl Henc]]].
  assert (Hd12 : len d = 12) by lia.
  exists d. unfold Bson.ObjectIdHex, Bson.Valid, Bson.Hex.
  rewrite Hd, Hd12. auto.
Qed.

(** The digits [Hex] writes are lowercase hexadecimal digits. *)
Lemma hextable_digit (v : ascii) :
  let hi := at' Hex.hextable (Z.shiftr (byteZ v) 4) in
  let lo := at' Hex.hextable (Z.land (byteZ v) 15) in
  isHexDigit hi = true /\ isHexDigit lo = true
  /\ Strings.lowerByte hi = hi /\ Strings.lowerByte lo = lo.
Proof.
  destruct v as [[] [] [] [] [] [] [] []]; vm_compute; repeat split.
Qed.

Lemma Hex_digits (x : Bson.ObjectId) :
  all isHexDigit (Bson.Hex x) = true
  /\ Strings.ToLower (Bson.Hex x) = Bson.Hex x.
Proof.
  unfold Bson.Hex. induction x as [| v x [IH1 IH2]]; [split; reflexivity |].
  cbn [Hex.EncodeToString all Strings.ToLower].
  destruct (hextable_digit v) as [H1 [H2 [H3 H4]]].
  rewrite H1, H2, H3, H4, IH1, IH2. split; reflexivity.
Qed.

Lemma Hex_valid (x : Bson.ObjectId) :
  Bson.Valid x = true -> validExternalId (Bson.Hex x).
Proof.
  unfold Bson.Valid. intros H. apply Z.eqb_eq in H.
  split; [| apply Hex_digits].
  unfold Bson.Hex. rewrite EncodeToString_len. lia.
Qed.

Lemma ObjectIdHex_Hex (x : Bson.ObjectId) :
  Bson.Valid x = true -> Bson.ObjectIdHex (Bson.Hex x) = Some x.
Proof.
  intros H. unfold Bson.ObjectIdHex, Bson.Hex.
  rewrite DecodeString_EncodeToString. unfold Bson.Valid in H.
  rewrite H. reflexivity.
Qed.

(** Generated identifiers have twelve bytes. *)
Lemma NewObjectId_Valid (p : Bson.Process) :
  Bson.Valid (fst (Bson.NewObjectId p)) = true.
Proof.
  unfold Bson.NewObjectId. destruct (Bson.machineId p) as [[m0 m1] m2].
  reflexivity.
Qed.

(** Two identifiers generated one after the other differ, whatever the
    clock shows at the second call. *)
Lemma NewObjectId_fresh (p : Bson.Process) (t : Z) :
  fst (Bson.NewObjectId p)
  <> fst (Bson.NewObjectId (Bson.setUnixTime t (snd (Bson.NewObjectId p)))).
Proof.
  unfold Bson.NewObjectId, Bson.setUnixTime.
  destruct (Bson.machineId p) as [[m0 m1] m2]. cbn [fst snd Bson.unixTime
    Bson.machineId Bson.processId Bson.objectIdCounter].
  intros H. apply (f_equal (String.get 11)) in H.
  cbn [String.get] in H. injection H as H.
  apply (f_equal byteZ) in H. rewrite !byteZ_toByte in H.
  change (2 ^ 32) with 4294967296 in H.
  revert H. generalize (Bson.objectIdCounter p). intros c H.
  Z.div_mod_to_equations. lia.
Qed.

Lemma NewObjectId_counter (p : Bson.Process) :
  Bson.objectIdCounter (snd (Bson.NewObjectId p))
  = (Bson.objectIdCounter p + 1) mod 2 ^ 32.
Proof.
  unfold Bson.NewObjectId. destruct (Bson.machineId p) as [[m0 m1] m2].
  reflexivity.
Qed.

Lemma GetObjectIdFromString_invalid (s : string) (e : error) (p : Bson.Process) :
  isValidId s = (false, e) ->
  GetObjectIdFromString s p
  = (Some (fst (Bson.NewObjectId p), e), snd (Bson.NewObjectId p)).
Proof.
  intros H. unfold GetObjectIdFromString. rewrite H. cbn [Bool.eqb].
  destruct (Bson.NewObjectId p). reflexivity.
Qed.

Lemma GetObjectIdFromString_valid (s : string) (p : Bson.Process) :
  isValidId s = (true, nil) ->
  GetObjectIdFromString s p
  = (option_map (fun id => (id, nil)) (Bson.ObjectIdHex s), p).
Proof.
  intros H. unfold GetObjectIdFromString. rewrite H. reflexivity.
Qed.

(** Every string is of the wrong length, of the right length with a bad
    character, or a valid external identifier. *)
Lemma isValidId_cases (s : string) :
  isValidId s = (false, ErrIdBadLength)
  \/ isValidId s = (false, ErrIdNotHex)
  \/ (validExternalId s /\ isValidId s = (true, nil)).
Proof.
  destruct (Z.eq_dec (len s) 24) as [Hlen | Hlen].
  - destruct (all isHexDigit s) eqn:H.
    + right; right. assert (V : validExternalId s) by (split; assumption).
      split; [exact V | apply isValidId_valid, V].
    + right; left. apply isValidId_not_hex; assumption.
  - left. apply isValidId_bad_length, Hlen.
Qed.

End Identifiers.

(** ** Reading integers *)

Section Integers.

Import Strconv.

Lemma isDigit_value (c : ascii) :
  isDigit c = true -> 0 <= byteZ c - byteZ "0" <= 9.
Proof.
  unfold isDigit. intros H. apply andb_prop in H as [H1 H2].
  apply Z.leb_le in H1, H2. change (byteZ "9") with 57 in H2.
  change (byteZ "0") with 48 in *. lia.
Qed.

Lemma decimalValue_nonneg (s : string) :
  all isDigit s = true -> 0 <= decimalValue s.
Proof.
  induction s as [| c s IH]; cbn [all decimalValue]; [lia |].
  intros H. apply andb_prop in H as [Hc Hs].
  pose proof (isDigit_value c Hc). specialize (IH Hs).
  assert (0 < 10 ^ len s) by (apply Z.pow_pos_nonneg; [lia | apply len_nonneg]).
  nia.
Qed.

(** The digit loop computes the number the digits denote, continuing
    from [n], or reports that it does not fit sixty-four bits. *)
Lemma parseUintLoop_digits (s : string) :
  all isDigit s = true ->
  forall n, 0 <= n < 2 ^ 64 ->
  parseUintLoop s n =
    if n * 10 ^ len s + decimalValue s <? 2 ^ 64
    then (n * 10 ^ len s + decimalValue s, None)
    else (maxUint64, Some ErrRange).
Proof.
  induction s as [| c s IH]; cbn [all decimalValue parseUintLoop]; intros H n Hn.
  - change (len EmptyString) with 0. rewrite Z.pow_0_r, Z.mul_1_r, Z.add_0_r.
    destruct (Z.ltb_spec n (2 ^ 64)); [reflexivity | lia].
  - apply andb_prop in H as [Hc Hs]. rewrite Hc.
    pose proof (isDigit_value c Hc) as Hd.
    pose proof (decimalValue_nonneg s Hs) as HD.
    assert (HP : 0 < 10 ^ len s)
      by (apply Z.pow_pos_nonneg; [lia | apply len_nonneg]).
    rewrite len_cons, Z.pow_add_r, Z.pow_1_r by (try apply len_nonneg; lia).
    specialize (IH Hs).
    set (d := byteZ c - byteZ "0") in *.
    set (P := 10 ^ len s) in *. set (D := decimalValue s) in *.
    unfold maxUint64 in *.
    change (2 ^ 64) with 18446744073709551616 in *.
    change ((18446744073709551616 - 1) / 10 + 1) with 1844674407370955162.
    change (18446744073709551616 - 1) with 18446744073709551615.
    rewrite Z.geb_leb.
    destruct (Z.leb_spec 1844674407370955162 n) as [Hcut | Hcut].
    + destruct (Z.ltb_spec (n * (P * 10) + (d * P + D)) 18446744073709551616);
        [nia | reflexivity].
    + rewrite (Z.mod_small (n * 10)) by lia.
      destruct (Z.ltb_spec (n * 10 + d) 18446744073709551616) as [Hfit | Hover].
      * rewrite (Z.mod_small (n * 10 + d)) by lia.
        destruct (Z.ltb_spec (n * 10 + d) (n * 10)); [lia |].
        destruct (Z.ltb_spec 18446744073709551615 (n * 10 + d)); [lia |].
        cbn [orb]. rewrite IH by lia.
        replace (n * (P * 10) + (d * P + D)) with ((n * 10 + d) * P + D) by ring.
        reflexivity.
      * assert (Hm : (n * 10 + d) mod 18446744073709551616
                     = n * 10 + d - 18446744073709551616).
        { symmetry. apply Z.mod_unique with (q := 1); lia. }
        rewrite Hm.
        destruct (Z.ltb_spec (n * 10 + d - 18446744073709551616) (n * 10));
          [| lia].
        cbn [orb].
        destruct (Z.ltb_spec (n * (P * 10) + (d * P + D)) 18446744073709551616);
          [nia | reflexivity].
Qed.

(** A character that is no digit stops the loop with an error, unless
    an overflow stopped it before. *)
Lemma parseUintLoop_not_digits (s : string) :
  all isDigit s = false ->
  forall n, parseUintLoop s n = (0, Some ErrSyntax)
            \/ parseUintLoop s n = (maxUint64, Some ErrRange).
Proof.
  induction s as [| c s IH]; cbn [all parseUintLoop]; intros H n.
  - discriminate H.
  - destruct (isDigit c); [| left; reflexivity].
    cbn [andb] in H.
    destruct (n >=? maxUint64 / 10 + 1); [right; reflexivity |].
    match goal with
    | |- context [if ?b then _ else _] => destruct b
    end; [right; reflexivity | apply IH, H].
Qed.

Lemma toInt64_small (v : Z) : - 2 ^ 63 <= v < 2 ^ 63 -> toInt64 v = v.
Proof.
  unfold toInt64. intros H. rewrite Z.mod_small; lia.
Qed.

Lemma toInt64_min : toInt64 (2 ^ 63) = - 2 ^ 63.
Proof. reflexivity. Qed.

(** What [ParseInt] makes of the unsigned value and of the sign. *)
Lemma signed_value (neg : bool) (un : Z) :
  0 <= un < 2 ^ 64 ->
  let v := if neg then - un else un in
  (if negb neg && (un >=? 2 ^ 63) then (2 ^ 63 - 1, Some ErrRange)
   else if neg && (un >? 2 ^ 63) then (- 2 ^ 63, Some ErrRange)
   else (if neg then toInt64 (- toInt64 un) else toInt64 un, None)) =
    if (- 2 ^ 63 <=? v) && (v <? 2 ^ 63) then (v, None)
    else (if neg then - 2 ^ 63 else 2 ^ 63 - 1, Some ErrRange).
Proof.
  intros Hun. cbv zeta. rewrite Z.geb_leb, Z.gtb_ltb.
  change (2 ^ 64) with 18446744073709551616 in *.
  destruct neg; cbn [negb andb].
  - destruct (Z.ltb_spec (2 ^ 63) un) as [Hbig | Hsmall];
      destruct (Z.leb_spec (- 2 ^ 63) (- un));
      destruct (Z.ltb_spec (- un) (2 ^ 63));
      cbn [andb]; try reflexivity;
      change (2 ^ 63) with 9223372036854775808 in *; try lia.
    destruct (Z.eq_dec un 9223372036854775808) as [-> | Hne]; [reflexivity |].
    change 9223372036854775808 with (2 ^ 63) in *.
    rewrite (toInt64_small un) by lia. rewrite toInt64_small by lia.
    reflexivity.
  - destruct (Z.leb_spec (2 ^ 63) un) as [Hbig | Hsmall];
      destruct (Z.leb_spec (- 2 ^ 63) un);
      destruct (Z.ltb_spec un (2 ^ 63));
      cbn [andb]; try reflexivity;
      change (2 ^ 63) with 9223372036854775808 in *; try lia.
    change 9223372036854775808 with (2 ^ 63) in *.
    rewrite toInt64_small by lia. reflexivity.
Qed.

Lemma ParseInt_signed (c0 : ascii) (s' : string) :
  ParseInt (String c0 s') 0 =
    let neg := Ascii.eqb c0 "-" in
    match ParseUint (if Ascii.eqb c0 "+" || Ascii.eqb c0 "-"
                     then s' else String c0 s') with
    | (_, Some ErrSyntax) => (0, Some ErrSyntax)
    | (un, _) =>
        if negb neg && (un >=? 2 ^ 63) then (2 ^ 63 - 1, Some ErrRange)
        else if neg && (un >? 2 ^ 63) then (- 2 ^ 63, Some ErrRange)
        else (if neg then toInt64 (- toInt64 un) else toInt64 un, None)
    end.
Proof. reflexivity. Qed.

(** [ParseUint] on one or more digits. *)
Lemma ParseUint_digits (s : string) :
  digits s = true ->
  ParseUint s = if decimalValue s <? 2 ^ 64 then (decimalValue s, None)
                else (maxUint64, Some ErrRange).
Proof.
  unfold digits. intros H. apply andb_prop in H as [Hne Hs].
  destruct s as [| c s]; [discriminate Hne |].
  unfold ParseUint. rewrite (parseUintLoop_digits _ Hs 0) by lia.
  rewrite Z.mul_0_l, Z.add_0_l. reflexivity.
Qed.

Lemma ParseUint_not_digits (s : string) :
  digits s = false ->
  ParseUint s = (0, Some ErrSyntax) \/ ParseUint s = (maxUint64, Some ErrRange).
Proof.
  unfold digits. intros H. destruct s as [| c s]; [left; reflexivity |].
  rewrite len_cons in H.
  destruct (Z.eqb_spec (len s + 1) 0) as [E | _];
    [pose proof (len_nonneg s); lia |].
  cbn [negb andb] in H. unfold ParseUint.
  apply parseUintLoop_not_digits, H.
Qed.

(** The sign and digits of [body] read as a signed integer. *)
Lemma signed_digits (neg : bool) (body : string) :
  digits body = true ->
  let v := if neg then - decimalValue body else decimalValue body in
  match ParseUint body with
  | (_, Some ErrSyntax) => (0, Some ErrSyntax)
  | (un, _) =>
      if negb neg && (un >=? 2 ^ 63) then (2 ^ 63 - 1, Some ErrRange)
      else if neg && (un >? 2 ^ 63) then (- 2 ^ 63, Some ErrRange)
      else (if neg then toInt64 (- toInt64 un) else toInt64 un, None)
  end =
    if (- 2 ^ 63 <=? v) && (v <? 2 ^ 63) then (v, None)
    else (if neg then - 2 ^ 63 else 2 ^ 63 - 1, Some ErrRange).
Proof.
  intros H v. rewrite (ParseUint_digits _ H).
  assert (HD : 0 <= decimalValue body).
  { apply decimalValue_nonneg. unfold digits in H.
    apply andb_prop in H as [_ H]. exact H. }
  destruct (Z.ltb_spec (decimalValue body) (2 ^ 64)) as [Hfit | Hover].
  - apply signed_value. lia.
  - assert (Hout : (- 2 ^ 63 <=? v) && (v <? 2 ^ 63) = false).
    { subst v. change (2 ^ 64) with 18446744073709551616 in Hover.
      apply andb_false_iff.
      destruct neg; [left; apply Z.leb_gt | right; apply Z.ltb_ge];
        change (2 ^ 63) with 9223372036854775808; lia. }
    rewrite Hout. destruct neg; reflexivity.
Qed.

Lemma signed_not_digits (neg : bool) (body : string) :
  digits body = false ->
  snd (match ParseUint body with
       | (_, Some ErrSyntax) => (0, Some ErrSyntax)
       | (un, _) =>
           if negb neg && (un >=? 2 ^ 63) then (2 ^ 63 - 1, Some ErrRange)
           else if neg && (un >? 2 ^ 63) then (- 2 ^ 63, Some ErrRange)
           else (if neg then toInt64 (- toInt64 un) else toInt64 un, None)
       end) <> None.
Proof.
  intros H. destruct (ParseUint_not_digits _ H) as [-> | ->];
    [discriminate |].
  destruct neg; vm_compute; discriminate.
Qed.

(** [Atoi] returns the integer a literal denotes when Go's [int] holds
    it, and an error for every other string. *)
Lemma Atoi_integerLiteral (s : string) :
  match integerLiteral s with
  | Some v =>
      if (- 2 ^ 63 <=? v) && (v <? 2 ^ 63) then Atoi s = (v, None)
      else snd (Atoi s) = Some ErrRange
  | None => snd (Atoi s) <> None
  end.
Proof.
  unfold Atoi, integerLiteral. destruct s as [| c0 s']; [discriminate |].
  rewrite ParseInt_signed. cbv zeta.
  destruct (Ascii.eqb c0 "-") eqn:Em.
  - rewrite orb_true_r.
    destruct (digits s') eqn:Hd.
    + rewrite (signed_digits true s' Hd).
      destruct ((- 2 ^ 63 <=? - decimalValue s') && (- decimalValue s' <? 2 ^ 63));
        reflexivity.
    + apply (signed_not_digits true), Hd.
  - rewrite orb_false_r.
    destruct (Ascii.eqb c0 "+") eqn:Ep.
    + destruct (digits s') eqn:Hd.
      * rewrite (signed_digits false s' Hd).
        destruct ((- 2 ^ 63 <=? decimalValue s') && (decimalValue s' <? 2 ^ 63));
          reflexivity.
      * apply (signed_not_digits false), Hd.
    + destruct (digits (String c0 s')) eqn:Hd.
      * rewrite (signed_digits false _ Hd).
        destruct ((- 2 ^ 63 <=? decimalValue (String c0 s'))
                  && (decimalValue (String c0 s') <? 2 ^ 63));
          reflexivity.
      * apply (signed_not_digits false), Hd.
Qed.

End Integers.

(** ** Splitting at a one-byte separator *)

Section Splitting.

Import Strings.

Variable c : ascii.

Local Abbreviation sep := (String c EmptyString).

Lemma Index_cons (a : ascii) (s : string) :
  Index (String a s) sep
  = if Ascii.eqb a c then Some O else option_map S (Index s sep).
Proof.
  cbn [Index HasPrefix]. rewrite (Ascii.eqb_sym c a).
  destruct (Ascii.eqb a c); [| reflexivity].
  destruct s; reflexivity.
Qed.

Lemma Index_empty : Index EmptyString sep = None.
Proof. reflexivity. Qed.

Lemma take_cons (a : ascii) (m : nat) (s : string) :
  take (S m) (String a s) = String a (take m s).
Proof. reflexivity. Qed.

Lemma take_zero (s : string) : take 0 s = EmptyString.
Proof. destruct s; reflexivity. Qed.

(** No separator, no cut. *)
Lemma Index_none (s : string) :
  Index s sep = None <-> countByte c s = O.
Proof.
  induction s as [| a s IH]; [split; reflexivity |].
  rewrite Index_cons. cbn [countByte].
  destruct (Ascii.eqb a c); [split; discriminate |].
  cbn [Nat.add]. rewrite <- IH.
  destruct (Index s sep); cbn [option_map]; split; congruence.
Qed.

(** The first separator cuts the string into a part without separator
    and a rest with one separator less. *)
Lemma Index_some (s : string) :
  forall m, Index s sep = Some m ->
  s = (take m s ++ sep ++ drop (m + String.length sep) s)%string
  /\ countByte c (take m s) = O
  /\ countByte c s = S (countByte c (drop (m + String.length sep) s)).
Proof.
  induction s as [| a s IH]; intros m; [discriminate |].
  rewrite Index_cons. cbn [countByte]. destruct (Ascii.eqb a c) eqn:E.
  - intros H. injection H as <-. apply Ascii.eqb_eq in E. subst a.
    rewrite take_zero. repeat split.
  - destruct (Index s sep) as [k |] eqn:Hk; [| discriminate].
    cbn [option_map]. intros H. injection H as <-.
    destruct (IH k eq_refl) as [Hs [Ht Hc]].
    rewrite take_cons. cbn [Nat.add drop countByte String.append].
    rewrite E. cbn [Nat.add]. repeat split; try assumption.
    f_equal. exact Hs.
Qed.

Lemma Join_cons (e : string) (rest : list string) (sp : string) :
  rest <> [] -> Join (e :: rest) sp = (e ++ sp ++ Join rest sp)%string.
Proof. destruct rest; [contradiction | reflexivity]. Qed.

Lemma genSplitLoop_nonempty (n : nat) (s sp : string) :
  genSplitLoop n s sp <> [].
Proof.
  destruct n; cbn [genSplitLoop]; [discriminate |].
  destruct (Index s sp); discriminate.
Qed.

(** With as many cuts allowed as there are separators, the loop returns
    the parts between the separators, in order: joined again they are
    the string, none holds a separator, and there is one more part than
    there are separators. *)
Lemma genSplitLoop_parts (n : nat) :
  forall s, countByte c s = n ->
  Join (genSplitLoop n s sep) sep = s
  /\ Forall (fun t => countByte c t = O) (genSplitLoop n s sep)
  /\ List.length (genSplitLoop n s sep) = S n.
Proof.
  induction n as [| n IH]; intros s Hs; cbn [genSplitLoop].
  - repeat split. constructor; [exact Hs | constructor].
  - destruct (Index s sep) as [m |] eqn:Hm.
    + destruct (Index_some s m Hm) as [Hcut [Ht Hc]].
      assert (Hrest : countByte c (drop (m + String.length sep) s) = n)
        by congruence.
      destruct (IH _ Hrest) as [HJ [HF HL]].
      rewrite Join_cons by apply genSplitLoop_nonempty.
      rewrite HJ. cbn [List.length]. rewrite HL.
      repeat split; [symmetry; exact Hcut | constructor; assumption].
    + apply Index_none in Hm. congruence.
Qed.

Lemma countByte_app (s t : string) :
  countByte c (s ++ t) = (countByte c s + countByte c t)%nat.
Proof.
  induction s as [| a s IH]; [reflexivity |].
  cbn [String.append countByte]. rewrite IH. lia.
Qed.

(** In front of a part without separator the first cut is at its end. *)
Lemma Index_app (t rest : string) :
  countByte c t = O ->
  Index (t ++ String c rest) sep = Some (String.length t)
  /\ take (String.length t) (t ++ String c rest) = t
  /\ drop (String.length t + 1) (t ++ String c rest) = rest.
Proof.
  induction t as [| a t IH]; cbn [countByte]; intros H.
  - cbn [String.append String.length]. rewrite Index_cons, Ascii.eqb_refl, take_zero.
    repeat split.
  - destruct (Ascii.eqb a c) eqn:E; [discriminate H |].
    destruct (IH H) as [Hi [Ht Hd]].
    cbn [String.append String.length]. rewrite Index_cons, E, Hi, take_cons, Ht.
    cbn [Nat.add drop]. rewrite Hd. repeat split.
Qed.

(** [Split] undoes [Join]: parts without separator, joined, are split
    into the same parts. *)
Lemma Split_Join (ts : list string) :
  ts <> [] ->
  Forall (fun t => countByte c t = O) ts ->
  Split (Join ts sep) sep = ts.
Proof.
  unfold Split. cbn [Count].
  induction ts as [| t ts IH]; [contradiction |].
  intros _ HF. inversion HF as [| ? ? Ht HF']; subst.
  destruct ts as [| u ts].
  - cbn [Join]. rewrite Ht. reflexivity.
  - rewrite Join_cons by discriminate. cbn [String.append].
    rewrite countByte_app, Ht. cbn [countByte Nat.add].
    rewrite Ascii.eqb_refl. cbn [Nat.add genSplitLoop String.length].
    destruct (Index_app t (Join (u :: ts) sep) Ht) as [Hi [Hk Hd]].
    rewrite Hi, Hk, Hd. f_equal. apply IH; [discriminate | exact HF'].
Qed.

Lemma Split_parts (s : string) :
  Join (Split s sep) sep = s
  /\ Forall (fun t => countByte c t = O) (Split s sep)
  /\ List.length (Split s sep) = S (countByte c s).
Proof.
  unfold Split. cbn [Count]. apply genSplitLoop_parts. reflexivity.
Qed.

End Splitting.

(** ** Form values *)

Section FormValues.

Lemma FormValue_formField (r : Http.Request) (key : string) :
  Http.FormValue r key = match formField r key with
                         | Some v => v
                         | None => EmptyString
                         end.
Proof.
  unfold Http.FormValue, formField.
  destruct (Http.lookup key (Http.Form r)) as [[| v vs] |]; reflexivity.
Qed.

Lemma FormValue_absent (r : Http.Request) (key : string) :
  Http.lookup key (Http.Form r) = None -> Http.FormValue r key = EmptyString.
Proof. unfold Http.FormValue. intros ->. reflexivity. Qed.

Lemma len_eqb_zero (s : string) : (len s =? 0) = String.eqb s EmptyString.
Proof.
  destruct s as [| a s]; [reflexivity |].
  rewrite len_cons. pose proof (len_nonneg s).
  destruct (Z.eqb_spec (len s + 1) 0); [lia | reflexivity].
Qed.

(** [Limit] in terms of the form value alone. *)
Lemma Limit_of_value (r : Http.Request) :
  Limit r = resolveLimit (Some (Http.FormValue r "limit")).
Proof.
  unfold Limit, resolveLimit, LIMIT_DEFAULT_VALUE, LIMIT_RETURN_ALL.
  rewrite len_eqb_zero.
  destruct (String.eqb (Http.FormValue r "limit") EmptyString); [reflexivity |].
  destruct (String.eqb (Http.FormValue r "limit") "none"
            || String.eqb (Http.FormValue r "limit") "all"); [reflexivity |].
  unfold parseInteger.
  pose proof (Atoi_integerLiteral (Http.FormValue r "limit")) as H.
  destruct (integerLiteral (Http.FormValue r "limit")) as [v |].
  - destruct ((- 2 ^ 63 <=? v) && (v <? 2 ^ 63)).
    + rewrite H. reflexivity.
    + destruct (Strconv.Atoi (Http.FormValue r "limit")) as [n e].
      cbn [snd] in H. rewrite H. reflexivity.
  - destruct (Strconv.Atoi (Http.FormValue r "limit")) as [n [e |]];
      [reflexivity | now contradiction H].
Qed.

Lemma Sort_of_value (r : Http.Request) :
  Http.FormValue r "sort" <> EmptyString ->
  Sort r = Strings.Split (Http.FormValue r "sort") ",".
Proof.
  intros H. unfold Sort. rewrite len_eqb_zero.
  destruct (String.eqb_spec (Http.FormValue r "sort") EmptyString);
    [contradiction | reflexivity].
Qed.

End FormValues.

(** * The claims *)

(** ** Identifier codec *)

(** C1: encoding and decoding are mutually inverse.  For an identifier
    [x] of the internal form (twelve bytes, as generated identifiers and
    decoded ones are), decoding the encoding of [x] succeeds and gives
    [x] back; for a valid external identifier [s] (24 hexadecimal digits)
    decoding succeeds and encoding the result gives [s] in lower case;
    what encoding yields is a valid external identifier in lower case. *)
Theorem codec_round_trip (x : Bson.ObjectId) (s : string) (p : Bson.Process) :
  Bson.Valid x = true ->
  validExternalId s ->
  GetObjectIdFromString (GetStringFromObjectId x) p = (Some (x, nil), p)
  /\ (exists y, GetObjectIdFromString s p = (Some (y, nil), p)
                /\ GetStringFromObjectId y = Strings.ToLower s)
  /\ validExternalId (GetStringFromObjectId x)
  /\ Strings.ToLower (GetStringFromObjectId x) = GetStringFromObjectId x.
Proof.
  intros Hx Hs. unfold GetStringFromObjectId. repeat split.
  - rewrite GetObjectIdFromString_valid
      by (apply isValidId_valid, Hex_valid, Hx).
    rewrite ObjectIdHex_Hex by exact Hx. reflexivity.
  - destruct (ObjectIdHex_valid s Hs) as [y [Hy [_ Henc]]].
    exists y. rewrite GetObjectIdFromString_valid by (apply isValidId_valid, Hs).
    rewrite Hy. split; [reflexivity | exact Henc].
  - apply Hex_valid, Hx.
  - apply Hex_valid, Hx.
  - apply Hex_digits.
Qed.

Lemma codec_round_trip_witness :
  Bson.Valid "Vz4Vx4Vx4Vx4" = true
  /\ validExternalId "507F1F77BCF86CD799439011"
  /\ GetObjectIdFromString (GetStringFromObjectId "Vz4Vx4Vx4Vx4") someProcess
     = (Some ("Vz4Vx4Vx4Vx4", nil), someProcess)
  /\ exists y, GetObjectIdFromString "507F1F77BCF86CD799439011" someProcess
               = (Some (y, nil), someProcess)
               /\ GetStringFromObjectId y
                  = Strings.ToLower "507F1F77BCF86CD799439011".
Proof.
  assert (Hx : Bson.Valid "Vz4Vx4Vx4Vx4" = true) by reflexivity.
  assert (Hs : validExternalId "507F1F77BCF86CD799439011")
    by (split; reflexivity).
  destruct (codec_round_trip "Vz4Vx4Vx4Vx4" "507F1F77BCF86CD799439011"
              someProcess Hx Hs) as [H1 [H2 _]].
  exact (conj Hx (conj Hs (conj H1 H2))).
Defined.

(** C2: a string whose length is not 24 is refused with [ErrIdBadLength],
    whatever its characters are: the length is checked first. *)
Theorem decode_bad_length (s : string) (p : Bson.Process) :
  len s <> 24 ->
  errorOf (GetObjectIdFromString s p) = Some ErrIdBadLength.
Proof.
  intros H.
  rewrite (GetObjectIdFromString_invalid s ErrIdBadLength)
    by (apply isValidId_bad_length, H).
  reflexivity.
Qed.

Lemma decode_bad_length_witness :
  len "not-hex!" <> 24
  /\ all isHexDigit "not-hex!" = false
  /\ errorOf (GetObjectIdFromString "not-hex!" someProcess)
     = Some ErrIdBadLength.
Proof.
  assert (H : len "not-hex!" <> 24) by discriminate.
  exact (conj H (conj eq_refl (decode_bad_length "not-hex!" someProcess H))).
Defined.

(** C3: a string of 24 characters with at least one character that is no
    hexadecimal digit is refused with [ErrIdNotHex]. *)
Theorem decode_not_hex (s : string) (p : Bson.Process) :
  len s = 24 ->
  (exists c, In c (list_ascii_of_string s) /\ isHexDigit c = false) ->
  errorOf (GetObjectIdFromString s p) = Some ErrIdNotHex.
Proof.
  intros Hlen H. apply all_false_ex in H.
  rewrite (GetObjectIdFromString_invalid s ErrIdNotHex)
    by (apply isValidId_not_hex; assumption).
  reflexivity.
Qed.

Lemma decode_not_hex_witness :
  errorOf (GetObjectIdFromString "507f1f77bcf86cd79943901g" someProcess)
  = Some ErrIdNotHex.
Proof.
  apply decode_not_hex; [reflexivity |].
  exists "g"%char. split; [| reflexivity].
  cbn [list_ascii_of_string]. do 23 right. left. reflexivity.
Defined.

(** C8, as amended: the outcome of decoding (success, or which error) is
    the same whatever the process data are; on success the identifier
    returned is the same too and the process data are left as they were;
    on failure the identifier returned is a newly generated one: the
    global counter has advanced and a second failing call returns a
    different identifier, whatever the clock shows then.  Decoding never
    panics.  Encoding is a function of the identifier alone. *)
Theorem decode_outcome (s : string) (p q : Bson.Process) (t : Z) :
  let r := GetObjectIdFromString s p in
  errorOf r = errorOf (GetObjectIdFromString s q)
  /\ match errorOf r with
     | Some nil =>
         idOf r = idOf (GetObjectIdFromString s q) /\ processAfter r = p
     | Some _ =>
         idOf r <> idOf (GetObjectIdFromString s
                           (Bson.setUnixTime t (processAfter r)))
         /\ Bson.objectIdCounter (processAfter r)
            = (Bson.objectIdCounter p + 1) mod 2 ^ 32
     | None => False
     end.
Proof.
  assert (Hfail : forall e, e <> nil -> isValidId s = (false, e) ->
    let r := GetObjectIdFromString s p in
    errorOf r = errorOf (GetObjectIdFromString s q)
    /\ match errorOf r with
       | Some nil =>
           idOf r = idOf (GetObjectIdFromString s q) /\ processAfter r = p
       | Some _ =>
           idOf r <> idOf (GetObjectIdFromString s
                             (Bson.setUnixTime t (processAfter r)))
           /\ Bson.objectIdCounter (processAfter r)
              = (Bson.objectIdCounter p + 1) mod 2 ^ 32
       | None => False
       end).
  { intros e He Hv. cbv zeta.
    rewrite !(GetObjectIdFromString_invalid s e) by exact Hv.
    unfold errorOf, idOf, processAfter. cbn [fst snd option_map].
    split; [reflexivity |].
    assert (Hfresh : Some (fst (Bson.NewObjectId p))
                     <> Some (fst (Bson.NewObjectId
                                (Bson.setUnixTime t (snd (Bson.NewObjectId p)))))).
    { intros H. injection H as H. exact (NewObjectId_fresh p t H). }
    destruct e; [contradiction | | |];
      (split; [exact Hfresh | apply NewObjectId_counter]). }
  destruct (isValidId_cases s) as [Hv | [Hv | [V Hv]]].
  - apply (Hfail ErrIdBadLength); [discriminate | exact Hv].
  - apply (Hfail ErrIdNotHex); [discriminate | exact Hv].
  - cbv zeta. rewrite !GetObjectIdFromString_valid by exact Hv.
    destruct (ObjectIdHex_valid s V) as [y [Hy _]]. rewrite Hy.
    unfold errorOf, idOf, processAfter. cbn [fst snd option_map].
    repeat split.
Qed.

Lemma decode_outcome_witness :
  errorOf (GetObjectIdFromString "xyz" someProcess) = Some ErrIdBadLength
  /\ idOf (GetObjectIdFromString "xyz" someProcess)
     <> idOf (GetObjectIdFromString "xyz"
                (Bson.setUnixTime 0
                   (processAfter (GetObjectIdFromString "xyz" someProcess)))).
Proof.
  pose proof (decode_outcome "xyz" someProcess someProcess 0) as H.
  cbv zeta in H. destruct H as [_ H].
  change (errorOf (GetObjectIdFromString "xyz" someProcess))
    with (Some ErrIdBadLength) in H.
  cbv iota in H. destruct H as [H _].
  exact (conj eq_refl H).
Defined.

(** C8, as the claim has it, fails: two calls on the same invalid string,
    one after the other, return the same error and different
    identifiers, and the first call has changed the process data. *)
Lemma decode_twice_counterexample :
  let r1 := GetObjectIdFromString "" someProcess in
  let r2 := GetObjectIdFromString "" (processAfter r1) in
  errorOf r1 = errorOf r2
  /\ idOf r1 <> idOf r2
  /\ processAfter r1 <> someProcess.
Proof.
  vm_compute. repeat split; discriminate.
Qed.

(** ** Query parameters *)

(** The integer an input denotes is returned as it is, whatever its
    sign. *)
Lemma Limit_verbatim (r : Http.Request) (s : string) (v : Z) :
  formField r "limit" = Some s ->
  integerLiteral s = Some v ->
  inIntRange v ->
  Limit r = v.
Proof.
  intros Hs Hv [Hlo Hhi].
  rewrite Limit_of_value, FormValue_formField, Hs.
  unfold resolveLimit, parseInteger. rewrite Hv.
  apply Z.leb_le in Hlo. apply Z.ltb_lt in Hhi. rewrite Hlo, Hhi. cbn [andb].
  destruct (String.eqb_spec s "") as [E | _];
    [rewrite E in Hv; discriminate Hv |].
  destruct (String.eqb_spec s "none") as [E | _];
    [rewrite E in Hv; vm_compute in Hv; discriminate Hv |].
  destruct (String.eqb_spec s "all") as [E | _];
    [rewrite E in Hv; vm_compute in Hv; discriminate Hv |].
  reflexivity.
Qed.

(** C4: [Limit] follows the policy of [resolveLimit]: no or empty input
    gives the default 5, the words [none] and [all], in this spelling
    only, give 0, a string that denotes an integer of Go's [int] gives
    that integer, zero and negative ones too, and every other string
    gives the default 5; there is no error. *)
Theorem Limit_policy :
  (forall r, Limit r = resolveLimit (formField r "limit"))
  /\ (forall r s v, formField r "limit" = Some s ->
                    integerLiteral s = Some v -> inIntRange v -> Limit r = v)
  /\ (forall r s, formField r "limit" = Some s ->
                  parseInteger s = None -> s <> "none" -> s <> "all" ->
                  Limit r = 5)
  /\ resolveLimit None = 5
  /\ resolveLimit (Some "") = 5
  /\ resolveLimit (Some "none") = 0
  /\ resolveLimit (Some "all") = 0
  /\ resolveLimit (Some "None") = 5
  /\ resolveLimit (Some "ALL") = 5
  /\ resolveLimit (Some "10") = 10
  /\ resolveLimit (Some "0") = 0
  /\ resolveLimit (Some "-3") = -3
  /\ resolveLimit (Some "abc") = 5.
Proof.
  assert (H : forall r, Limit r = resolveLimit (formField r "limit")).
  { intros r. rewrite Limit_of_value, FormValue_formField.
    destruct (formField r "limit"); reflexivity. }
  split; [exact H |]. split; [exact Limit_verbatim |].
  split; [| repeat split].
  intros r s Hs Hp Hn Ha. rewrite H, Hs. unfold resolveLimit. rewrite Hp.
  destruct (String.eqb_spec s ""); [reflexivity |].
  destruct (String.eqb_spec s "none"); [contradiction |].
  destruct (String.eqb_spec s "all"); [contradiction |].
  reflexivity.
Qed.

Lemma Limit_policy_witness :
  Limit (requestWith [("sort", "name")]) = 5
  /\ Limit (requestWith [("limit", "-12")]) = -12
  /\ Limit (requestWith [("limit", "12abc")]) = 5
  /\ Limit (requestWith [("limit", "9223372036854775808")]) = 5.
Proof.
  destruct Limit_policy as [H [Hv [Hd _]]].
  split; [rewrite H; reflexivity |].
  split; [| split].
  - apply (Hv _ "-12"); [reflexivity | reflexivity |].
    split; [discriminate | reflexivity].
  - apply (Hd _ "12abc"); [reflexivity | reflexivity | discriminate | discriminate].
  - apply (Hd _ "9223372036854775808");
      [reflexivity | reflexivity | discriminate | discriminate].
Defined.

(** C9: the input [0] gives the same limit as [none] and [all], the
    value 0 that stands for all results. *)
Theorem Limit_zero_is_return_all (r r' : Http.Request) :
  Http.FormValue r "limit" = "0" ->
  Http.FormValue r' "limit" = "none" \/ Http.FormValue r' "limit" = "all" ->
  Limit r = LIMIT_RETURN_ALL /\ Limit r = Limit r'.
Proof.
  intros H H'. rewrite !Limit_of_value, H.
  destruct H' as [-> | ->]; split; reflexivity.
Qed.

Lemma Limit_zero_is_return_all_witness :
  Limit (requestWith [("limit", "0")]) = LIMIT_RETURN_ALL
  /\ Limit (requestWith [("limit", "0")]) = Limit (requestWith [("limit", "all")]).
Proof.
  apply Limit_zero_is_return_all; [reflexivity | right; reflexivity].
Defined.

(** C5: for a form value that is not empty, [Sort] returns the parts
    [strings.Split] cuts it into at the commas: in their order and with
    every byte between the commas, blanks too, they are the form value
    again when joined with commas; no part holds a comma; and there is
    one part more than there are commas. *)
Theorem Sort_splits_in_order (r : Http.Request) :
  Http.FormValue r "sort" <> "" ->
  Sort r = Strings.Split (Http.FormValue r "sort") ","
  /\ Strings.Join (Sort r) "," = Http.FormValue r "sort"
  /\ Forall commaFree (Sort r)
  /\ List.length (Sort r) = S (Strings.countByte "," (Http.FormValue r "sort")).
Proof.
  intros H. rewrite (Sort_of_value r H).
  split; [reflexivity |]. apply Split_parts.
Qed.

Lemma Sort_splits_in_order_witness :
  Sort (requestWith [("sort", "birthday,-username")])
  = Strings.Split "birthday,-username" ","
  /\ Strings.Join (Sort (requestWith [("sort", "birthday,-username")])) ","
     = "birthday,-username".
Proof.
  assert (H : Http.FormValue (requestWith [("sort", "birthday,-username")]) "sort"
              <> "") by discriminate.
  destruct (Sort_splits_in_order _ H) as [H1 [H2 _]].
  exact (conj H1 H2).
Defined.

Example Sort_birthday_username :
  Sort (requestWith [("sort", "birthday,-username")]) = ["birthday"; "-username"].
Proof. reflexivity. Qed.

Example Sort_three_fields :
  Sort (requestWith [("sort", "-a,-b,c")]) = ["-a"; "-b"; "c"].
Proof. reflexivity. Qed.

Example Sort_keeps_blanks :
  Sort (requestWith [("sort", "a, b ,,c")]) = ["a"; " b "; ""; "c"].
Proof. reflexivity. Qed.

(** C6, as amended: every string [Sort] returns is the token as it was
    supplied.  For tokens without comma supplied with commas between
    them, the result is the list of these tokens: a leading [-], the mark
    of descending order, stays in front of the returned string, and a
    token without it is returned unchanged, so that direction and field
    name are read off the result as off the tokens. *)
Theorem Sort_returns_tokens (r : Http.Request) (ts : list string) :
  Http.FormValue r "sort" = Strings.Join ts "," ->
  Http.FormValue r "sort" <> "" ->
  Forall commaFree ts ->
  Sort r = ts
  /\ map descending (Sort r) = map descending ts
  /\ map fieldName (Sort r) = map fieldName ts.
Proof.
  intros HJ Hne HF.
  assert (H : Sort r = ts).
  { rewrite (Sort_of_value r Hne), HJ. apply Split_Join; [| exact HF].
    intros ->. apply Hne. rewrite HJ. reflexivity. }
  rewrite H. repeat split.
Qed.

Lemma Sort_returns_tokens_witness :
  Sort (requestWith [("sort", "birthday,-username")]) = ["birthday"; "-username"]
  /\ map descending (Sort (requestWith [("sort", "birthday,-username")]))
     = [false; true].
Proof.
  assert (HF : Forall commaFree ["birthday"; "-username"])
    by (repeat constructor).
  assert (Hne : Http.FormValue (requestWith [("sort", "birthday,-username")]) "sort"
                <> "") by discriminate.
  destruct (Sort_returns_tokens (requestWith [("sort", "birthday,-username")])
              ["birthday"; "-username"] eq_refl Hne HF) as [H1 [H2 _]].
  exact (conj H1 H2).
Defined.

(** C6, as the claim has it, fails: for the token [-username] the
    string returned is [-username], with the [-] in front, not the field
    name [username]. *)
Lemma Sort_strips_minus_counterexample :
  let r := requestWith [("sort", "-username")] in
  Sort r = ["-username"]
  /\ map fieldName (Strings.Split (Http.FormValue r "sort") ",") = ["username"]
  /\ Sort r <> map fieldName (Strings.Split (Http.FormValue r "sort") ",").
Proof.
  vm_compute. repeat split. discriminate.
Qed.

(** C7: without a sort value, or with the empty one, [Sort] returns the
    one default field [_id], which carries no mark of descending order. *)
Theorem Sort_default (r : Http.Request) :
  formField r "sort" = None \/ formField r "sort" = Some "" ->
  Sort r = [SORT_DEFAULT]
  /\ SORT_DEFAULT = "_id"
  /\ descending SORT_DEFAULT = false.
Proof.
  intros H. unfold Sort. rewrite FormValue_formField.
  destruct H as [-> | ->]; repeat split.
Qed.

Lemma Sort_default_witness :
  Sort (requestWith []) = ["_id"]
  /\ Sort (requestWith [("limit", "3"); ("sort", "")]) = ["_id"].
Proof.
  split.
  - apply (Sort_default (requestWith [])). left. reflexivity.
  - apply (Sort_default (requestWith [("limit", "3"); ("sort", "")])).
    right. reflexivity.
Defined.

(** C10: [Sort] never returns the empty sequence: there is a first
    directive for every request. *)
Theorem Sort_never_empty (r : Http.Request) :
  exists t ts, Sort r = t :: ts.
Proof.
  unfold Sort. destruct (len (Http.FormValue r "sort") =? 0); [eauto |].
  unfold Strings.Split. cbn [Strings.Count].
  pose proof (genSplitLoop_nonempty
                (Strings.countByte "," (Http.FormValue r "sort"))
                (Http.FormValue r "sort") ",") as H.
  destruct (Strings.genSplitLoop _ _ _) as [| t ts]; [contradiction | eauto].
Qed.

(** The single-field [Sort] of the earlier revision agrees with the
    splitting one on every value without comma. *)
Lemma Sort_single_field (r : Http.Request) :
  commaFree (Http.FormValue r "sort") ->
  Sort r = [SingleField.Sort r].
Proof.
  unfold Sort, SingleField.Sort, commaFree. intros H.
  destruct (len (Http.FormValue r "sort") =? 0); [reflexivity |].
  unfold Strings.Split. cbn [Strings.Count]. rewrite H. reflexivity.
Qed.

Example SingleField_Sort_unsplit :
  SingleField.Sort (requestWith [("sort", "birthday,-username")])
  = "birthday,-username".
Proof. reflexivity. Qed.

(** * Further properties of the package *)

(** ** The validators *)

(** X1: [isValidId] decides in this order: a length other than 24 gives
    [ErrIdBadLength]; 24 hexadecimal digits are accepted; 24 characters
    of which one is no hexadecimal digit give [ErrIdNotHex]. *)
Theorem isValidId_decides (s : string) :
  isValidId s =
    if negb (len s =? 24) then (false, ErrIdBadLength)
    else if all isHexDigit s then (true, nil)
    else (false, ErrIdNotHex).
Proof.
  destruct (Z.eqb_spec (len s) 24) as [Hlen | Hlen]; cbn [negb].
  - destruct (all isHexDigit s) eqn:H.
    + apply isValidId_valid. split; assumption.
    + apply isValidId_not_hex; assumption.
  - apply isValidId_bad_length, Hlen.
Qed.

Lemma IsObjectIdHex_valid (s : string) :
  Bson.IsObjectIdHex s = (len s =? 24) && all isHexDigit s.
Proof.
  unfold Bson.IsObjectIdHex.
  destruct (Z.eqb_spec (len s) 24) as [Hlen | Hlen]; cbn [negb andb];
    [| reflexivity].
  destruct (all isHexDigit s) eqn:H.
  - destruct (DecodeString_digits s H (even_of_len s 12 Hlen)) as [d [Hd _]].
    rewrite Hd. reflexivity.
  - pose proof (DecodeString_not_digits s H) as Herr.
    destruct (Hex.DecodeString s) as [d [e |]]; [reflexivity |].
    now contradiction Herr.
Qed.

(** X2: [isValidHexString] alone accepts exactly what [isValidId]
    accepts: the length check of [isValidId] changes the error reported,
    never the verdict. *)
Theorem isValidHexString_same_verdict (s : string) :
  fst (isValidHexString s) = fst (isValidId s).
Proof.
  rewrite isValidId_decides. unfold isValidHexString.
  rewrite IsObjectIdHex_valid.
  destruct (len s =? 24); cbn [negb andb Bool.eqb fst]; [| reflexivity].
  destruct (all isHexDigit s); reflexivity.
Qed.

(** X3: called on its own, [isValidHexString] reports a string of the
    wrong length as not hexadecimal, also when all its characters are
    hexadecimal digits. *)
Theorem isValidHexString_wrong_length (s : string) :
  len s <> 24 ->
  isValidHexString s = (false, ErrIdNotHex).
Proof.
  intros H. unfold isValidHexString. rewrite IsObjectIdHex_valid.
  destruct (Z.eqb_spec (len s) 24); [contradiction | reflexivity].
Qed.

Lemma isValidHexString_wrong_length_witness :
  all isHexDigit "abcd" = true
  /\ isValidHexString "abcd" = (false, ErrIdNotHex).
Proof.
  split; [reflexivity |].
  apply isValidHexString_wrong_length. discriminate.
Defined.

(** ** More on the identifier codec *)

Lemma EncodeToString_injective (x y : string) :
  Hex.EncodeToString x = Hex.EncodeToString y -> x = y.
Proof.
  intros H. apply (f_equal Hex.DecodeString) in H.
  rewrite !DecodeString_EncodeToString in H. congruence.
Qed.

(** X4: two identifiers with the same text are the same identifier,
    whatever their size. *)
Theorem GetStringFromObjectId_injective (x y : Bson.ObjectId) :
  GetStringFromObjectId x = GetStringFromObjectId y -> x = y.
Proof. apply EncodeToString_injective. Qed.

Lemma GetStringFromObjectId_injective_witness :
  ("Vz4Vx4Vx4Vx4" : Bson.ObjectId) = "Vz4Vx4Vx4Vx4".
Proof.
  apply GetStringFromObjectId_injective. reflexivity.
Defined.

(** X5: the text of any identifier consists of lowercase hexadecimal
    digits, two for each of its bytes. *)
Theorem GetStringFromObjectId_shape (x : Bson.ObjectId) :
  len (GetStringFromObjectId x) = 2 * len x
  /\ all isHexDigit (GetStringFromObjectId x) = true
  /\ Strings.ToLower (GetStringFromObjectId x) = GetStringFromObjectId x.
Proof.
  split; [apply EncodeToString_len | apply Hex_digits].
Qed.

(** X6: decoding the text of an identifier succeeds when the identifier
    has twelve bytes and is refused with [ErrIdBadLength] otherwise; it is
    never refused with [ErrIdNotHex]. *)
Theorem decode_of_encode (x : Bson.ObjectId) (p : Bson.Process) :
  errorOf (GetObjectIdFromString (GetStringFromObjectId x) p)
  = Some (if Bson.Valid x then nil else ErrIdBadLength).
Proof.
  destruct (Bson.Valid x) eqn:V.
  - rewrite GetObjectIdFromString_valid
      by (apply isValidId_valid, Hex_valid, V).
    unfold GetStringFromObjectId. rewrite (ObjectIdHex_Hex x V). reflexivity.
  - rewrite (GetObjectIdFromString_invalid _ ErrIdBadLength); [reflexivity |].
    apply isValidId_bad_length.
    unfold GetStringFromObjectId, Bson.Hex. rewrite EncodeToString_len.
    unfold Bson.Valid in V. apply Z.eqb_neq in V. lia.
Qed.

(** X7: decoding succeeds for valid external identifiers only; the
    identifier it then returns has twelve bytes, its text is the input in
    lower case, and the process data are untouched. *)
Theorem decode_success (s : string) (p : Bson.Process) :
  errorOf (GetObjectIdFromString s p) = Some nil ->
  validExternalId s
  /\ exists y, GetObjectIdFromString s p = (Some (y, nil), p)
               /\ Bson.Valid y = true
               /\ GetStringFromObjectId y = Strings.ToLower s.
Proof.
  intros H. destruct (isValidId_cases s) as [Hv | [Hv | [V Hv]]].
  - rewrite (GetObjectIdFromString_invalid s _ p Hv) in H. discriminate H.
  - rewrite (GetObjectIdFromString_invalid s _ p Hv) in H. discriminate H.
  - split; [exact V |].
    destruct (ObjectIdHex_valid s V) as [y [Hy [Vy Henc]]].
    exists y. rewrite (GetObjectIdFromString_valid s p Hv), Hy.
    repeat split; assumption.
Qed.

Lemma decode_success_witness :
  validExternalId "507F1F77BCF86CD799439011"
  /\ exists y, GetObjectIdFromString "507F1F77BCF86CD799439011" someProcess
               = (Some (y, nil), someProcess)
               /\ Bson.Valid y = true
               /\ GetStringFromObjectId y
                  = Strings.ToLower "507F1F77BCF86CD799439011".
Proof.
  apply decode_success. reflexivity.
Defined.

(** X8: the identifier returned together with an error is a well-formed
    one all the same: it has twelve bytes and its text is accepted by a
    later call. *)
Theorem decode_failure_identifier (s : string) (e : error)
  (p q : Bson.Process) :
  errorOf (GetObjectIdFromString s p) = Some e ->
  e <> nil ->
  exists y, idOf (GetObjectIdFromString s p) = Some y
            /\ Bson.Valid y = true
            /\ GetObjectIdFromString (GetStringFromObjectId y) q
               = (Some (y, nil), q).
Proof.
  intros H He.
  assert (Hinv : exists e', isValidId s = (false, e')).
  { destruct (isValidId_cases s) as [Hv | [Hv | [V Hv]]]; eauto.
    destruct (ObjectIdHex_valid s V) as [y [Hy _]].
    rewrite (GetObjectIdFromString_valid s p Hv), Hy in H.
    cbn in H. congruence. }
  destruct Hinv as [e' Hv].
  rewrite (GetObjectIdFromString_invalid s e' p Hv).
  exists (fst (Bson.NewObjectId p)).
  pose proof (NewObjectId_Valid p) as V.
  repeat split; [exact V |].
  rewrite GetObjectIdFromString_valid
    by (apply isValidId_valid, Hex_valid, V).
  unfold GetStringFromObjectId. rewrite (ObjectIdHex_Hex _ V). reflexivity.
Qed.

Lemma decode_failure_identifier_witness :
  exists y, idOf (GetObjectIdFromString "12345" someProcess) = Some y
            /\ Bson.Valid y = true
            /\ GetObjectIdFromString (GetStringFromObjectId y) someProcess
               = (Some (y, nil), someProcess).
Proof.
  apply (decode_failure_identifier "12345" ErrIdBadLength);
    [reflexivity | discriminate].
Defined.

(** X9: two valid external identifiers decode to the same identifier
    exactly when they differ in the case of their letters at most. *)
Theorem decode_equal_iff_same_modulo_case (s1 s2 : string)
  (p q : Bson.Process) :
  validExternalId s1 ->
  validExternalId s2 ->
  idOf (GetObjectIdFromString s1 p) = idOf (GetObjectIdFromString s2 q)
  <-> Strings.ToLower s1 = Strings.ToLower s2.
Proof.
  intros V1 V2.
  destruct (ObjectIdHex_valid s1 V1) as [y1 [Hy1 [_ E1]]].
  destruct (ObjectIdHex_valid s2 V2) as [y2 [Hy2 [_ E2]]].
  rewrite !GetObjectIdFromString_valid by (apply isValidId_valid; assumption).
  rewrite Hy1, Hy2. unfold idOf. cbn [fst option_map].
  split.
  - intros H. injection H as ->. congruence.
  - intros H. f_equal. apply EncodeToString_injective.
    unfold Bson.Hex in E1, E2. congruence.
Qed.

Lemma decode_equal_iff_same_modulo_case_witness :
  idOf (GetObjectIdFromString "507F1F77BCF86CD799439011" someProcess)
  = idOf (GetObjectIdFromString "507f1f77bcf86cd799439011" someProcess).
Proof.
  apply decode_equal_iff_same_modulo_case;
    [split; reflexivity | split; reflexivity | reflexivity].
Defined.

(** ** More on [Limit] *)

Lemma parseInteger_range (s : string) (v : Z) :
  parseInteger s = Some v -> inIntRange v.
Proof.
  unfold parseInteger, inIntRange.
  destruct (integerLiteral s) as [u |]; [| discriminate].
  destruct (Z.leb_spec (- 2 ^ 63) u); destruct (Z.ltb_spec u (2 ^ 63));
    cbn [andb]; intros E; try discriminate E.
  injection E as <-. lia.
Qed.

Lemma parseInteger_literal (s : string) (v : Z) :
  integerLiteral s = Some v -> inIntRange v -> parseInteger s = Some v.
Proof.
  unfold parseInteger, inIntRange. intros -> [Hlo Hhi].
  apply Z.leb_le in Hlo. apply Z.ltb_lt in Hhi. rewrite Hlo, Hhi. reflexivity.
Qed.

Lemma Limit_parsed (r : Http.Request) (v : Z) :
  Http.FormValue r "limit" <> "none" ->
  Http.FormValue r "limit" <> "all" ->
  parseInteger (Http.FormValue r "limit") = Some v ->
  Limit r = v.
Proof.
  intros Hn Ha Hp. rewrite Limit_of_value. unfold resolveLimit. rewrite Hp.
  destruct (String.eqb_spec (Http.FormValue r "limit") "") as [E | _];
    [rewrite E in Hp; discriminate Hp |].
  destruct (String.eqb_spec (Http.FormValue r "limit") "none"); [contradiction |].
  destruct (String.eqb_spec (Http.FormValue r "limit") "all"); [contradiction |].
  reflexivity.
Qed.

Lemma Limit_unparsed (r : Http.Request) :
  Http.FormValue r "limit" <> "none" ->
  Http.FormValue r "limit" <> "all" ->
  parseInteger (Http.FormValue r "limit") = None ->
  Limit r = 5.
Proof.
  intros Hn Ha Hp. rewrite Limit_of_value. unfold resolveLimit. rewrite Hp.
  destruct (String.eqb (Http.FormValue r "limit") ""); [reflexivity |].
  destruct (String.eqb_spec (Http.FormValue r "limit") "none"); [contradiction |].
  destruct (String.eqb_spec (Http.FormValue r "limit") "all"); [contradiction |].
  reflexivity.
Qed.

(** X10: whatever the request, [Limit] returns a value of Go's [int]:
    no input makes the conversion overflow. *)
Theorem Limit_in_int_range (r : Http.Request) : inIntRange (Limit r).
Proof.
  rewrite Limit_of_value. unfold resolveLimit.
  destruct (String.eqb (Http.FormValue r "limit") "");
    [split; [discriminate | reflexivity] |].
  destruct (String.eqb (Http.FormValue r "limit") "none"
            || String.eqb (Http.FormValue r "limit") "all");
    [split; [discriminate | reflexivity] |].
  destruct (parseInteger (Http.FormValue r "limit")) as [v |] eqn:Hp.
  - apply (parseInteger_range _ _ Hp).
  - split; [discriminate | reflexivity].
Qed.

(** X11: [Limit] returns 0, the value for all results, exactly for the
    words [none] and [all] and for the literals that denote zero. *)
Theorem Limit_zero_iff (r : Http.Request) :
  Limit r = 0
  <-> Http.FormValue r "limit" = "none"
      \/ Http.FormValue r "limit" = "all"
      \/ integerLiteral (Http.FormValue r "limit") = Some 0.
Proof.
  set (s := Http.FormValue r "limit").
  destruct (String.eqb_spec s "none") as [En | Hn].
  { split; [auto |]. intros _. rewrite Limit_of_value. fold s. rewrite En.
    reflexivity. }
  destruct (String.eqb_spec s "all") as [Ea | Ha].
  { split; [auto |]. intros _. rewrite Limit_of_value. fold s. rewrite Ea.
    reflexivity. }
  destruct (parseInteger s) as [v |] eqn:Hp.
  - rewrite (Limit_parsed r v Hn Ha Hp). split.
    + intros ->. right; right. unfold parseInteger in Hp.
      destruct (integerLiteral s) as [u |]; [| discriminate Hp].
      destruct ((- 2 ^ 63 <=? u) && (u <? 2 ^ 63)); congruence.
    + intros [E | [E | E]]; [contradiction | contradiction |].
      rewrite (parseInteger_literal s 0 E) in Hp
        by (split; [discriminate | reflexivity]).
      congruence.
  - rewrite (Limit_unparsed r Hn Ha Hp). split; [discriminate |].
    intros [E | [E | E]]; [contradiction | contradiction |].
    rewrite (parseInteger_literal s 0 E) in Hp
      by (split; [discriminate | reflexivity]).
    discriminate Hp.
Qed.

Lemma isDigit_not_sign (c : ascii) :
  Strconv.isDigit c = true -> Ascii.eqb c "-" = false /\ Ascii.eqb c "+" = false.
Proof.
  intros H. split.
  - destruct (Ascii.eqb_spec c "-") as [-> | _]; [discriminate H | reflexivity].
  - destruct (Ascii.eqb_spec c "+") as [-> | _]; [discriminate H | reflexivity].
Qed.

Lemma integerLiteral_digits (s : string) :
  digits s = true -> integerLiteral s = Some (decimalValue s).
Proof.
  intros H. destruct s as [| c s']; [discriminate H |].
  unfold integerLiteral. rewrite H.
  unfold digits in H. apply andb_prop in H as [_ H].
  cbn [all] in H. apply andb_prop in H as [Hc _].
  destruct (isDigit_not_sign c Hc) as [-> ->]. reflexivity.
Qed.

Lemma integerLiteral_plus (s : string) :
  digits s = true -> integerLiteral (String "+" s) = Some (decimalValue s).
Proof. intros H. cbn. rewrite H. reflexivity. Qed.

Lemma integerLiteral_minus (s : string) :
  digits s = true -> integerLiteral (String "-" s) = Some (- decimalValue s).
Proof. intros H. cbn. rewrite H. reflexivity. Qed.

Lemma digits_zero (s : string) :
  digits s = true ->
  digits (String "0" s) = true /\ decimalValue (String "0" s) = decimalValue s.
Proof.
  intros H. split.
  - unfold digits in *. apply andb_prop in H as [_ H].
    rewrite len_cons. cbn [all]. rewrite H.
    pose proof (len_nonneg s).
    destruct (Z.eqb_spec (len s + 1) 0); [lia | reflexivity].
  - cbn [decimalValue]. change (byteZ "0" - byteZ "0") with 0. lia.
Qed.

Lemma digits_nonneg (s : string) : digits s = true -> 0 <= decimalValue s.
Proof.
  unfold digits. intros H. apply andb_prop in H as [_ H].
  apply decimalValue_nonneg, H.
Qed.

Lemma limitRequest_value (s : string) :
  Http.FormValue (limitRequest s) "limit" = s.
Proof. reflexivity. Qed.

Lemma digits_not_word (s : string) (v : Z) :
  integerLiteral s = Some v -> s <> "none" /\ s <> "all".
Proof.
  intros H. split; intros ->; vm_compute in H; discriminate H.
Qed.

Lemma Limit_literal (s : string) (v : Z) :
  integerLiteral s = Some v ->
  Limit (limitRequest s) = if (- 2 ^ 63 <=? v) && (v <? 2 ^ 63) then v else 5.
Proof.
  intros H. destruct (digits_not_word s v H) as [Hn Ha].
  destruct ((- 2 ^ 63 <=? v) && (v <? 2 ^ 63)) eqn:R.
  - apply Limit_parsed; rewrite limitRequest_value; try assumption.
    unfold parseInteger. rewrite H, R. reflexivity.
  - apply Limit_unparsed; rewrite limitRequest_value; try assumption.
    unfold parseInteger. rewrite H, R. reflexivity.
Qed.

(** X12: for one or more digits denoting a number below 2^63, [Limit]
    returns that number, also with a [+] or with zeros in front, and its
    negation with a [-] in front. *)
Theorem Limit_sign_and_zeros (s : string) :
  digits s = true ->
  decimalValue s < 2 ^ 63 ->
  Limit (limitRequest s) = decimalValue s
  /\ Limit (limitRequest (String "+" s)) = decimalValue s
  /\ Limit (limitRequest (String "0" s)) = decimalValue s
  /\ Limit (limitRequest (String "-" s)) = - decimalValue s.
Proof.
  intros H Hv. pose proof (digits_nonneg s H) as H0.
  destruct (digits_zero s H) as [Hz Ez].
  rewrite (Limit_literal s _ (integerLiteral_digits s H)).
  rewrite (Limit_literal _ _ (integerLiteral_plus s H)).
  rewrite (Limit_literal _ _ (integerLiteral_digits _ Hz)), Ez.
  rewrite (Limit_literal _ _ (integerLiteral_minus s H)).
  assert (R : (- 2 ^ 63 <=? decimalValue s) && (decimalValue s <? 2 ^ 63) = true).
  { apply andb_true_intro. split; [apply Z.leb_le | apply Z.ltb_lt]; lia. }
  assert (R' : (- 2 ^ 63 <=? - decimalValue s) && (- decimalValue s <? 2 ^ 63) = true).
  { apply andb_true_intro. split; [apply Z.leb_le | apply Z.ltb_lt]; lia. }
  rewrite R, R'. repeat split.
Qed.

Lemma Limit_sign_and_zeros_witness :
  Limit (limitRequest "42") = 42
  /\ Limit (limitRequest "+42") = 42
  /\ Limit (limitRequest "042") = 42
  /\ Limit (limitRequest "-42") = -42.
Proof.
  apply (Limit_sign_and_zeros "42"); reflexivity.
Defined.

(** X13: a number too large for Go's [int] is not cut down to the
    largest value: [Limit] returns the default 5 for it, with or without
    [+]; with [-] in front it returns the smallest [int] for 2^63 and the
    default 5 beyond. *)
Theorem Limit_too_large (s : string) :
  digits s = true ->
  2 ^ 63 <= decimalValue s ->
  Limit (limitRequest s) = 5
  /\ Limit (limitRequest (String "+" s)) = 5
  /\ Limit (limitRequest (String "-" s))
     = if decimalValue s =? 2 ^ 63 then - 2 ^ 63 else 5.
Proof.
  intros H Hv.
  rewrite (Limit_literal s _ (integerLiteral_digits s H)).
  rewrite (Limit_literal _ _ (integerLiteral_plus s H)).
  rewrite (Limit_literal _ _ (integerLiteral_minus s H)).
  assert (R : (- 2 ^ 63 <=? decimalValue s) && (decimalValue s <? 2 ^ 63) = false).
  { apply andb_false_iff. right. apply Z.ltb_ge. exact Hv. }
  rewrite R. split; [reflexivity | split; [reflexivity |]].
  destruct (Z.eqb_spec (decimalValue s) (2 ^ 63)) as [E | E].
  - rewrite E. reflexivity.
  - assert (R' : (- 2 ^ 63 <=? - decimalValue s) && (- decimalValue s <? 2 ^ 63)
                 = false).
    { apply andb_false_iff. left. apply Z.leb_gt. lia. }
    rewrite R'. reflexivity.
Qed.

Lemma Limit_too_large_witness :
  Limit (limitRequest "9223372036854775808") = 5
  /\ Limit (limitRequest "+9223372036854775808") = 5
  /\ Limit (limitRequest "-9223372036854775808") = - 2 ^ 63.
Proof.
  apply (Limit_too_large "9223372036854775808"); [reflexivity | discriminate].
Defined.

Lemma all_true_in (f : ascii -> bool) (s : string) (c : ascii) :
  all f s = true -> In c (list_ascii_of_string s) -> f c = true.
Proof.
  induction s as [| a s IH]; cbn [all list_ascii_of_string In]; [tauto |].
  intros H [-> | Hin]; apply andb_prop in H as [Ha Hs]; auto.
Qed.

Lemma integerLiteral_characters (s : string) (v : Z) (c : ascii) :
  integerLiteral s = Some v ->
  In c (list_ascii_of_string s) ->
  Strconv.isDigit c = true \/ c = "+"%char \/ c = "-"%char.
Proof.
  destruct s as [| c0 s']; [discriminate |].
  unfold integerLiteral.
  assert (Hbody : forall b, digits b = true -> In c (list_ascii_of_string b) ->
                            Strconv.isDigit c = true).
  { unfold digits. intros b Hb Hin. apply andb_prop in Hb as [_ Hb].
    exact (all_true_in _ _ _ Hb Hin). }
  destruct (Ascii.eqb_spec c0 "-") as [-> | Hm].
  - destruct (digits s') eqn:Hd; [| discriminate].
    intros _ [<- | Hin]; [right; right; reflexivity |].
    left. exact (Hbody _ Hd Hin).
  - destruct (Ascii.eqb_spec c0 "+") as [-> | Hp].
    + destruct (digits s') eqn:Hd; [| discriminate].
      intros _ [<- | Hin]; [right; left; reflexivity |].
      left. exact (Hbody _ Hd Hin).
    + destruct (digits (String c0 s')) eqn:Hd; [| discriminate].
      intros _ Hin. left. exact (Hbody _ Hd Hin).
Qed.

(** X14: nothing is trimmed or skipped: a value with a character that is
    neither a decimal digit nor a sign, a blank for one, gives the
    default 5, unless the value is one of the two words. *)
Theorem Limit_other_characters (s : string) :
  (exists c, In c (list_ascii_of_string s)
             /\ Strconv.isDigit c = false /\ c <> "+"%char /\ c <> "-"%char) ->
  s <> "none" ->
  s <> "all" ->
  Limit (limitRequest s) = 5.
Proof.
  intros [c [Hin [Hd [Hp Hm]]]] Hn Ha.
  apply Limit_unparsed; rewrite limitRequest_value; try assumption.
  unfold parseInteger. destruct (integerLiteral s) as [v |] eqn:E; [| reflexivity].
  destruct (integerLiteral_characters s v c E Hin) as [H | [H | H]];
    congruence.
Qed.

Lemma Limit_other_characters_witness :
  Limit (limitRequest " 10") = 5.
Proof.
  apply Limit_other_characters; [| discriminate | discriminate].
  exists " "%char. repeat split; [left; reflexivity | discriminate | discriminate].
Defined.

(** ** More on [Sort] *)

Lemma sortRequest_value (s : string) :
  Http.FormValue (sortRequest s) "sort" = s.
Proof. reflexivity. Qed.

Lemma string_append_assoc (a b d : string) :
  ((a ++ b) ++ d = a ++ b ++ d)%string.
Proof.
  induction a as [| x a IH]; [reflexivity |].
  cbn [String.append]. rewrite IH. reflexivity.
Qed.

Lemma Join_app (l1 l2 : list string) (sp : string) :
  l1 <> [] -> l2 <> [] ->
  Strings.Join (l1 ++ l2) sp
  = (Strings.Join l1 sp ++ sp ++ Strings.Join l2 sp)%string.
Proof.
  intros H1 H2. induction l1 as [| e l1 IH]; [contradiction |].
  destruct l1 as [| e' l1].
  - cbn [app]. rewrite Join_cons by exact H2. reflexivity.
  - change ((e :: e' :: l1) ++ l2)%list with (e :: ((e' :: l1) ++ l2))%list.
    rewrite !Join_cons by discriminate. rewrite IH by discriminate.
    rewrite !string_append_assoc. reflexivity.
Qed.

Lemma Split_comma_nonempty (s : string) : Strings.Split s "," <> [].
Proof.
  unfold Strings.Split. cbn [Strings.Count]. apply genSplitLoop_nonempty.
Qed.

(** Splitting at commas goes through a comma between two strings. *)
Lemma Split_append (a b : string) :
  Strings.Split (a ++ "," ++ b) ","
  = (Strings.Split a "," ++ Strings.Split b ",")%list.
Proof.
  destruct (Split_parts "," a) as [Ja [Fa _]].
  destruct (Split_parts "," b) as [Jb [Fb _]].
  rewrite <- Ja at 1. rewrite <- Jb at 1.
  rewrite <- Join_app by apply Split_comma_nonempty.
  apply Split_Join.
  - intros H. apply app_eq_nil in H as [H _].
    exact (Split_comma_nonempty a H).
  - apply Forall_app. split; assumption.
Qed.

Lemma Sort_sortRequest (s : string) :
  s <> "" -> Sort (sortRequest s) = Strings.Split s ",".
Proof.
  intros H. apply Sort_of_value. rewrite sortRequest_value. exact H.
Qed.

Lemma append_comma_nonempty (a b : string) : (a ++ "," ++ b)%string <> "".
Proof. destruct a; discriminate. Qed.

(** X15: [Sort] goes through a comma: for two non-empty values, the
    result for the values with a comma between them is the result for
    the first followed by the result for the second. *)
Theorem Sort_append (a b : string) :
  a <> "" ->
  b <> "" ->
  Sort (sortRequest (a ++ "," ++ b))
  = (Sort (sortRequest a) ++ Sort (sortRequest b))%list.
Proof.
  intros Ha Hb.
  rewrite !Sort_sortRequest by (try apply append_comma_nonempty; assumption).
  apply Split_append.
Qed.

Lemma Sort_append_witness :
  Sort (sortRequest ("birthday,-username" ++ "," ++ "-age"))
  = (Sort (sortRequest "birthday,-username") ++ Sort (sortRequest "-age"))%list.
Proof.
  apply Sort_append; discriminate.
Defined.

(** X16: the default field stands in for an empty value only, never for
    an empty token: a value that starts or ends with a comma gives the
    empty string as first or last element. *)
Theorem Sort_empty_tokens (b : string) :
  Sort (sortRequest ("," ++ b)) = "" :: Strings.Split b ","
  /\ Sort (sortRequest (b ++ ",")) = (Strings.Split b "," ++ [""])%list.
Proof.
  split.
  - rewrite Sort_sortRequest by discriminate.
    exact (Split_append "" b).
  - rewrite Sort_sortRequest by (destruct b; discriminate).
    exact (Split_append b "").
Qed.

(** X17: the two revisions of [Sort] agree up to the splitting: the
    elements the later one returns, joined with commas, are the string
    the earlier one returns, for every request. *)
Theorem Sort_joined_is_single_field (r : Http.Request) :
  Strings.Join (Sort r) "," = SingleField.Sort r.
Proof.
  unfold Sort, SingleField.Sort.
  destruct (len (Http.FormValue r "sort") =? 0); [reflexivity |].
  apply Split_parts.
Qed.

(** ** [NoResult] *)

(** X18: [NoResult] answers yes, with [ErrNoResults], for the driver's
    own [mgo.ErrNotFound] and for nothing else: every other error, one
    with the same text and the package's [ErrNoResults] it has returned
    itself included, gives [(false, nil)] like no error at all. *)
Theorem NoResult_only_not_found (input : goError) :
  (NoResult input = (true, ErrNoResults) <-> input = mgoErrNotFound)
  /\ (input <> mgoErrNotFound -> NoResult input = (false, nil))
  /\ NoResult (packageError (snd (NoResult input))) = (false, nil)
  /\ NoResult (foreignError "not found") = NoResult (packageError nil).
Proof.
  split; [split | split; [| split]].
  - destruct input; [discriminate | reflexivity | discriminate].
  - intros ->. reflexivity.
  - intros H. destruct input; [reflexivity | contradiction | reflexivity].
  - destruct input; reflexivity.
  - reflexivity.
Qed.

Lemma NoResult_only_not_found_witness :
  NoResult (foreignError "connection refused") = (false, nil).
Proof.
  destruct (NoResult_only_not_found (foreignError "connection refused"))
    as [_ [H _]].
  apply H. discriminate.
Defined.

(** ** Connecting and closing *)

(** X19: [setReadPreference] touches the mode only.  For 0, 1 and 2 the
    session gets the mode of that number and nothing is logged; for any
    other number, negative ones too, the session stays as it is and one
    line is logged.  The stored session, the safety and the closed state
    are never changed. *)
Theorem setReadPreference_mode (s : Mgo.Session) (input : Z) (w : World) :
  let s' := fst (setReadPreference s input w) in
  let w' := snd (setReadPreference s input w) in
  Mgo.safety s' = Mgo.safety s
  /\ Mgo.closed s' = Mgo.closed s
  /\ SESSION w' = SESSION w
  /\ (0 <= input <= 2 -> Mgo.modeNumber (Mgo.consistency s') = input /\ w' = w)
  /\ (~ 0 <= input <= 2 ->
      s' = s
      /\ logged w' = (logged w ++ ["mongoutils.go-SetReadPreference error"])%list).
Proof.
  unfold setReadPreference.
  destruct (Z.eqb_spec input 0) as [-> | H0];
    [cbn; repeat split; intros; lia |].
  destruct (Z.eqb_spec input 1) as [-> | H1];
    [cbn; repeat split; intros; lia |].
  destruct (Z.eqb_spec input 2) as [-> | H2];
    [cbn; repeat split; intros; lia |].
  cbn. repeat split; intros; lia.
Qed.

Lemma setReadPreference_mode_witness :
  let s := Mgo.mkSession Mgo.Strong None false in
  let w := mkWorld None [] in
  Mgo.consistency (fst (setReadPreference s 1 w)) = Mgo.Monotonic
  /\ fst (setReadPreference s (-1) w) = s
  /\ logged (snd (setReadPreference s 3 w))
     = ["mongoutils.go-SetReadPreference error"].
Proof.
  intros s w.
  destruct (setReadPreference_mode s 1 w) as [_ [_ [_ [H1 _]]]].
  destruct (setReadPreference_mode s (-1) w) as [_ [_ [_ [_ Hm]]]].
  destruct (setReadPreference_mode s 3 w) as [_ [_ [_ [_ H3]]]].
  split; [| split].
  - destruct H1 as [H1 _]; [lia |].
    destruct (Mgo.consistency (fst (setReadPreference s 1 w)));
      [discriminate H1 | reflexivity | discriminate H1].
  - apply Hm. lia.
  - apply H3. lia.
Defined.

(** X20: the two revisions of [Connect] that take the read preference
    as an argument agree: with the number of a mode, the later one does
    what the earlier one does with the mode, session and log alike. *)
Theorem Connect_agrees_with_mode_argument (servers database : string)
  (m : Mgo.Mode) (writeConcern : option Mgo.Safe)
  (dial : string -> Mgo.Session + string) (w : World) :
  Connect servers database (Mgo.modeNumber m) writeConcern dial w
  = ModeArgument.Connect servers database m writeConcern dial w.
Proof.
  unfold Connect, ModeArgument.Connect.
  destruct (dial (servers ++ database)%string) as [s | err]; [| reflexivity].
  destruct m; reflexivity.
Qed.




(** X23: a read preference that is no mode number does not stop
    [Connect]: the dialled session is stored with the mode it was
    dialled with and with the write concern asked for, and the log shows
    the complaint before the success line. *)
Theorem Connect_unknown_preference (servers database : string)
  (readPreference : Z) (writeConcern : option Mgo.Safe)
  (dial : string -> Mgo.Session + string) (w : World) (s : Mgo.Session) :
  dial (servers ++ database)%string = inl s ->
  ~ 0 <= readPreference <= 2 ->
  Connect servers database readPreference writeConcern dial w
  = Returned (mkWorld (Some (Mgo.SetSafe writeConcern s))
                (logged w ++ ["mongoutils.go-SetReadPreference error";
                              "mongoutils.go-Connect okay"])).
Proof.
  intros H Hp. unfold Connect, setReadPreference. rewrite H.
  destruct (Z.eqb_spec readPreference 0); [lia |].
  destruct (Z.eqb_spec readPreference 1); [lia |].
  destruct (Z.eqb_spec readPreference 2); [lia |].
  cbn. rewrite <- app_assoc. reflexivity.
Qed.

Lemma Connect_unknown_preference_witness :
  Connect "localhost:27017/" "db" 7 None
    (fun _ => inl (Mgo.mkSession Mgo.Strong None false)) (mkWorld None [])
  = Returned (mkWorld (Some (Mgo.mkSession Mgo.Strong None false))
                ["mongoutils.go-SetReadPreference error";
                 "mongoutils.go-Connect okay"]).
Proof.
  apply (Connect_unknown_preference "localhost:27017/" "db" 7 None
           (fun _ => inl (Mgo.mkSession Mgo.Strong None false))
           (mkWorld None []) (Mgo.mkSession Mgo.Strong None false));
    [reflexivity | lia].
Defined.


